(** * ComfyUI_FaceProcessor: the landmark-driven geometry of
      [core/image_processor.py], embedded and checked against its specification.

    Conventions of the embedding.
    - A Python [float] (a landmark coordinate, a padding fraction) is an exact
      rational [Q]; [int(v)] is truncation toward zero.  The angle returned by
      [np.degrees(np.arctan2(dy, dx))] is a real number [R].
    - A Python [int] is a [Z]; [//] is floor division ([Z.div]).
    - A pandas DataFrame with the columns [index], [x], [y] is the list of its
      rows, in order; [None] is [None] of [option].
    - A numpy array is its dtype, its shape and its samples in row-major order.
    - A call that can raise returns a [result]: [Ok v] or [Raise e]. *)

From Stdlib Require Import ZArith QArith Qminmax Qround Qreals List Bool Reals Psatz.
Import ListNotations.
Open Scope Z_scope.

(** ** Python values and exceptions *)

Module Py.

(** The exceptions the modelled code paths can raise.  [IndexError] is what
    the specification calls MissingLandmarkError when it comes from
    [.iloc[0]] on an empty selection; [Cv2Error] is [cv2.error]. *)
Inductive exn : Type :=
| AttributeError
| IndexError
| ValueError
| Cv2Error.

Inductive result (A : Type) : Type :=
| Ok (a : A)
| Raise (e : exn).
Arguments Ok {A} a.
Arguments Raise {A} e.

Definition bind {A B : Type} (m : result A) (k : A -> result B) : result B :=
  match m with
  | Ok a => k a
  | Raise e => Raise e
  end.

Definition raises {A : Type} (m : result A) : bool :=
  match m with
  | Ok _ => false
  | Raise _ => true
  end.

(** [int(v)] on a float: truncation toward zero. *)
Definition int (v : Q) : Z := Z.quot (Qnum v) (Zpos (Qden v)).

(** [max(0, v)]: the first argument is kept unless [v] is strictly larger. *)
Definition max0 (v : Q) : Q := if Qle_bool v 0 then 0%Q else v.

End Py.

Notation "x <- m ;; k" := (Py.bind m (fun x => k))
  (at level 61, m at next level, right associativity).

Import Py.

(** ** The landmark table *)

Record Landmark (C : Type) : Type := mkLandmark {
  lm_index : Z;
  lm_x : C;
  lm_y : C
}.
Arguments mkLandmark {C} _ _ _.
Arguments lm_index {C} _.
Arguments lm_x {C} _.
Arguments lm_y {C} _.

Definition DataFrame (C : Type) : Type := list (Landmark C).

Module Pd.

(** [Series.min()] and [Series.max()].  Of an empty column pandas gives
    NaN; no caller below reaches that case, and it is 0 here. *)
Definition series_min (s : list Q) : Q :=
  match s with
  | [] => 0%Q
  | v :: vs => fold_left Qmin vs v
  end.

Definition series_max (s : list Q) : Q :=
  match s with
  | [] => 0%Q
  | v :: vs => fold_left Qmax vs v
  end.

(** [df['x']] and [df['y']] *)
Definition col_x (df : DataFrame Q) : list Q := map lm_x df.
Definition col_y (df : DataFrame Q) : list Q := map lm_y df.

(** [df.empty] *)
Definition empty {C : Type} (df : DataFrame C) : bool :=
  match df with
  | [] => true
  | _ :: _ => false
  end.

(** [df[df['index'] == i]]: the rows whose index is [i], in order. *)
Definition select_index {C : Type} (df : DataFrame C) (i : Z) : DataFrame C :=
  filter (fun r => lm_index r =? i) df.

(** [.iloc[0]]: the first row, IndexError when there is none. *)
Definition iloc0 {C : Type} (df : DataFrame C) : result (Landmark C) :=
  match df with
  | [] => Raise IndexError
  | r :: _ => Ok r
  end.

End Pd.

(** ** calculate_face_bbox *)

Definition BBox : Type := (Z * Z * Z * Z)%type.

Definition calculate_face_bbox (landmarks_df : option (DataFrame Q))
    (padding_percent : Q) : option BBox :=
  match landmarks_df with
  | None => None
  | Some df =>
      if Pd.empty df then None
      else
        let min_x := Pd.series_min (Pd.col_x df) in
        let max_x := Pd.series_max (Pd.col_x df) in
        let min_y := Pd.series_min (Pd.col_y df) in
        let max_y := Pd.series_max (Pd.col_y df) in
        let width := (max_x - min_x)%Q in
        let height := (max_y - min_y)%Q in
        let pad_x := (width * padding_percent)%Q in
        let pad_y := (height * padding_percent)%Q in
        let x1 := max0 (min_x - pad_x) in
        let y1 := max0 (min_y - pad_y) in
        let x2 := (max_x + pad_x)%Q in
        let y2 := (max_y + pad_y)%Q in
        Some (int x1, int y1, int (x2 - x1), int (y2 - y1))
  end.

(** ** numpy arrays *)

Module Np.

Inductive dtype : Type := UInt8 | Float32 | Float64.

Definition dtype_eqb (a b : dtype) : bool :=
  match a, b with
  | UInt8, UInt8 | Float32, Float32 | Float64, Float64 => true
  | _, _ => false
  end.

Record ndarray : Type := mkArray {
  nd_dtype : dtype;
  nd_shape : list nat;
  nd_data : list Q
}.

Definition size_of (shape : list nat) : nat := fold_right Nat.mul 1%nat shape.

(** [a.shape[i]]: IndexError when the shape tuple is too short. *)
Definition shape_at (a : ndarray) (i : nat) : result Z :=
  match nth_error (nd_shape a) i with
  | Some n => Ok (Z.of_nat n)
  | None => Raise IndexError
  end.

(** [a[0]]: the first item along axis 0. *)
Definition item0 (a : ndarray) : result ndarray :=
  match nd_shape a with
  | [] => Raise IndexError
  | O :: _ => Raise IndexError
  | S _ :: rest =>
      Ok (mkArray (nd_dtype a) rest (firstn (size_of rest) (nd_data a)))
  end.

(** [a.max()]: ValueError on a zero-size array. *)
Definition amax (a : ndarray) : result Q :=
  match nd_data a with
  | [] => Raise ValueError
  | vs => Ok (Pd.series_max vs)
  end.

(** The cast of one sample to uint8: truncate, then keep the low 8 bits. *)
Definition to_uint8 (v : Q) : Q := inject_Z (Py.int v mod 256).

(** [(a * 255).astype(np.uint8)] *)
Definition mul255_astype_uint8 (a : ndarray) : ndarray :=
  mkArray UInt8 (nd_shape a) (map (fun v => to_uint8 (v * 255)) (nd_data a)).

(** One bound of a slice [start:stop] over an axis of length [n]: a negative
    bound counts from the end, and both are clipped to [0, n]. *)
Definition slice_bound (n : nat) (i : Z) : Z :=
  if i <? 0 then Z.max 0 (i + Z.of_nat n) else Z.min i (Z.of_nat n).

(** Offset and length of [start:stop] over an axis of length [n]. *)
Definition slice_range (n : nat) (start stop : Z) : nat * nat :=
  let s := slice_bound n start in
  let e := slice_bound n stop in
  (Z.to_nat s, Z.to_nat (e - s)).

Fixpoint chunks {A : Type} (k n : nat) (l : list A) : list (list A) :=
  match n with
  | O => []
  | S n' => firstn k l :: chunks k n' (skipn k l)
  end.

(** [a[y1:y2, x1:x2]]: basic slicing of the first two axes.  Slices never
    raise on out-of-range bounds; indexing two axes of an array with fewer
    raises IndexError. *)
Definition slice2 (a : ndarray) (y1 y2 x1 x2 : Z) : result ndarray :=
  match nd_shape a with
  | h :: w :: rest =>
      let inner := size_of rest in
      let '(r0, rn) := slice_range h y1 y2 in
      let '(c0, cn) := slice_range w x1 x2 in
      let rows := firstn rn (skipn r0 (chunks (w * inner) h (nd_data a))) in
      Ok (mkArray (nd_dtype a) (rn :: cn :: rest)
            (flat_map (fun row => firstn (cn * inner) (skipn (c0 * inner) row)) rows))
  | _ => Raise IndexError
  end.

(** [np.arctan2(y, x)]: the angle of the point [(x, y)], in (-PI, PI]. *)
Definition arctan2 (y x : R) : R :=
  if Rlt_dec 0 x then atan (y / x)
  else if Rlt_dec x 0 then
    (if Rle_dec 0 y then atan (y / x) + PI else atan (y / x) - PI)%R
  else if Rlt_dec 0 y then (PI / 2)%R
  else if Rlt_dec y 0 then (- (PI / 2))%R
  else 0%R.

(** [np.degrees(r)] *)
Definition degrees (r : R) : R := (r * 180 / PI)%R.

(** A well-formed array holds as many samples as its shape says, and a
    uint8 array holds integers of [0, 255]. *)
Definition is_uint8 (v : Q) : bool :=
  (Zpos (Qden v) =? 1) && (0 <=? Qnum v) && (Qnum v <=? 255).

Definition wf (a : ndarray) : bool :=
  (length (nd_data a) =? size_of (nd_shape a))%nat
  && match nd_dtype a with
     | UInt8 => forallb is_uint8 (nd_data a)
     | _ => true
     end.

End Np.

Import Np.

(** ** The two OpenCV colour conversions the normalizer calls *)

Module Cv2.

Inductive color_code : Type := COLOR_GRAY2RGB | COLOR_RGBA2RGB.

(** [cvtColor] accepts 8-bit and single-precision samples (and 16-bit ones,
    which are not modelled), and no empty image. *)
Definition depth_ok (d : dtype) : bool :=
  match d with
  | UInt8 | Float32 => true
  | Float64 => false
  end.

Fixpoint drop_alpha (l : list Q) : list Q :=
  match l with
  | r :: g :: b :: _ :: rest => r :: g :: b :: drop_alpha rest
  | _ => []
  end.

Definition cvtColor (src : ndarray) (code : color_code) : result ndarray :=
  if negb (depth_ok (nd_dtype src)) || (size_of (nd_shape src) =? 0)%nat
  then Raise Cv2Error
  else
    match code, nd_shape src with
    | COLOR_GRAY2RGB, [h; w] =>
        Ok (mkArray (nd_dtype src) [h; w; 3%nat]
              (flat_map (fun v => [v; v; v]) (nd_data src)))
    | COLOR_GRAY2RGB, [h; w; 1%nat] =>
        Ok (mkArray (nd_dtype src) [h; w; 3%nat]
              (flat_map (fun v => [v; v; v]) (nd_data src)))
    | COLOR_RGBA2RGB, [h; w; 4%nat] =>
        Ok (mkArray (nd_dtype src) [h; w; 3%nat] (drop_alpha (nd_data src)))
    | COLOR_RGBA2RGB, [h; w; 3%nat] => Ok src
    | _, _ => Raise Cv2Error
    end.

End Cv2.

(** ** ImageProcessor *)

(** What a caller can pass as [image]: [None], a torch tensor (with the array
    [image.detach().cpu().numpy()] gives), a PIL image (with the array
    [np.array(image)] gives), or a numpy array. *)
Inductive image_input : Type :=
| PyNone
| Tensor (t : ndarray)
| PILImage (a : ndarray)
| NdArray (a : ndarray).

(** The first half of [_convert_to_numpy]: the dispatch on the type of
    [image].  An object of none of the three types is left as it is. *)
Definition convert_by_type (image : image_input) : result (option ndarray) :=
  match image with
  | Tensor t =>
      image <- (if (length (nd_shape t) =? 4)%nat then item0 t else Ok t) ;;
      Ok (Some (mul255_astype_uint8 image))
  | PILImage a => Ok (Some a)
  | NdArray a =>
      image <-
        (if dtype_eqb (nd_dtype a) Float32
         then m <- amax a ;;
              Ok (if Qle_bool m 1 then mul255_astype_uint8 a else a)
         else Ok a) ;;
      image <- (if (length (nd_shape image) =? 4)%nat then item0 image else Ok image) ;;
      Ok (Some image)
  | PyNone => Ok None
  end.

(** The second half: the dispatch on [image.shape].  [None] has no [shape]
    (AttributeError), and a shape of fewer than two entries has no
    [shape[2]] (IndexError). *)
Definition convert_channels (image : option ndarray) : result ndarray :=
  match image with
  | None => Raise AttributeError
  | Some image =>
      match nd_shape image with
      | [_; _] => Cv2.cvtColor image Cv2.COLOR_GRAY2RGB
      | _ :: _ :: c :: _ =>
          if (c =? 4)%nat then Cv2.cvtColor image Cv2.COLOR_RGBA2RGB else Ok image
      | _ => Raise IndexError
      end
  end.

Definition _convert_to_numpy (image : image_input) : result ndarray :=
  image <- convert_by_type image ;;
  convert_channels image.

Definition crop_face (image : image_input) (landmarks_df : option (DataFrame Q))
    (padding_percent : Q) : result (option ndarray) :=
  image_np <- _convert_to_numpy image ;;
  match calculate_face_bbox landmarks_df padding_percent with
  | None => Ok None
  | Some (x, y, w, h) =>
      cropped <- slice2 image_np y (y + h) x (x + w) ;;
      Ok (Some cropped)
  end.

Definition LEFT_EYE : Z := 33.
Definition RIGHT_EYE : Z := 263.

Definition calculate_rotation_angle (landmarks_df : option (DataFrame Q)) : result R :=
  match landmarks_df with
  | None => Ok 0%R
  | Some df =>
      if Pd.empty df then Ok 0%R
      else
        left_eye <- Pd.iloc0 (Pd.select_index df LEFT_EYE) ;;
        right_eye <- Pd.iloc0 (Pd.select_index df RIGHT_EYE) ;;
        let dx := (lm_x right_eye - lm_x left_eye)%Q in
        let dy := (lm_y right_eye - lm_y left_eye)%Q in
        Ok (degrees (arctan2 (Q2R dy) (Q2R dx)))
  end.

(** The crop region [(x1, y1, x2, y2)] of [crop_face_to_square], from the
    padded box and the image's shape[1] and shape[0]. *)
Definition square_region (bbox : BBox) (shape1 shape0 : Z) : Z * Z * Z * Z :=
  let '(x, y, w, h) := bbox in
  let center_x := x + w / 2 in
  let center_y := y + h / 2 in
  let crop_size := Z.max w h in
  let half_size := crop_size / 2 in
  let x1 := Z.max 0 (center_x - half_size) in
  let y1 := Z.max 0 (center_y - half_size) in
  let x2 := Z.min shape1 (center_x + half_size) in
  let y2 := Z.min shape0 (center_y + half_size) in
  let x1 := if x2 - x1 <? crop_size then Z.max 0 (x2 - crop_size) else x1 in
  let y1 := if y2 - y1 <? crop_size then Z.max 0 (y2 - crop_size) else y1 in
  (x1, y1, x2, y2).

Definition crop_face_to_square (image : ndarray) (landmarks_df : option (DataFrame Q))
    (padding_percent : Q) : result (option (ndarray * BBox)) :=
  match calculate_face_bbox landmarks_df padding_percent with
  | None => Ok None
  | Some bbox =>
      shape1 <- shape_at image 1 ;;
      shape0 <- shape_at image 0 ;;
      let '(x1, y1, x2, y2) := square_region bbox shape1 shape0 in
      cropped_face <- slice2 image y1 y2 x1 x2 ;;
      Ok (Some (cropped_face, (x1, y1, x2 - x1, y2 - y1)))
  end.

(** The side of the square [crop_face_to_square] aims at. *)
Definition crop_size_of (bbox : BBox) : Z :=
  let '(_, _, w, h) := bbox in Z.max w h.

Section Resamplers.

(** The two Lanczos resamplers of OpenCV are taken as given. *)
Variable warpAffine : ndarray -> (R * R * R) * (R * R * R) -> Z * Z -> result ndarray.
Variable resize : ndarray -> Z * Z -> result ndarray.

(** [cv2.getRotationMatrix2D(center, angle, scale)], angle in degrees. *)
Definition getRotationMatrix2D (center : R * R) (angle scale : R)
  : (R * R * R) * (R * R * R) :=
  let a := (scale * cos (angle * PI / 180))%R in
  let b := (scale * sin (angle * PI / 180))%R in
  let '(cx, cy) := center in
  ((a, b, (1 - a) * cx - b * cy)%R, (- b, a, b * cx + (1 - a) * cy)%R).

Definition transform_point (m : (R * R * R) * (R * R * R)) (r : Landmark Q)
  : Landmark R :=
  let '((m00, m01, m02), (m10, m11, m12)) := m in
  mkLandmark (lm_index r)
    (m00 * Q2R (lm_x r) + m01 * Q2R (lm_y r) + m02 * 1)%R
    (m10 * Q2R (lm_x r) + m11 * Q2R (lm_y r) + m12 * 1)%R.

(** [_convert_to_numpy] returns an array or raises, so of the two tests of
    [image_np is None or landmarks_df is None] only the second can hold. *)
Definition rotate_image (image : image_input) (landmarks_df : option (DataFrame Q))
  : result (option (ndarray * DataFrame R)) :=
  image_np <- _convert_to_numpy image ;;
  match landmarks_df with
  | None => Ok None
  | Some df =>
      angle <- calculate_rotation_angle landmarks_df ;;
      match nd_shape image_np with
      | height :: width :: _ =>
          let center := (IZR (Z.of_nat width / 2), IZR (Z.of_nat height / 2)) in
          let rotation_matrix := getRotationMatrix2D center angle 1 in
          rotated_image <-
            warpAffine image_np rotation_matrix (Z.of_nat width, Z.of_nat height) ;;
          Ok (Some (rotated_image, map (transform_point rotation_matrix) df))
      | _ => Raise ValueError
      end
  end.

Definition resize_image (image : image_input) (target_size : Z)
  : result (option ndarray) :=
  match image with
  | PyNone => Ok None
  | _ =>
      image_np <- _convert_to_numpy image ;;
      match nd_shape image_np with
      | h :: w :: _ =>
          let h := Z.of_nat h in
          let w := Z.of_nat w in
          let min_dim := Z.min h w in
          let start_x := (w - min_dim) / 2 in
          let start_y := (h - min_dim) / 2 in
          let end_x := start_x + min_dim in
          let end_y := start_y + min_dim in
          cropped_image <- slice2 image_np start_y end_y start_x end_x ;;
          resized <- resize cropped_image (target_size, target_size) ;;
          Ok (Some resized)
      | _ => Raise ValueError
      end
  end.

End Resamplers.

(** ** Sample inputs *)

Definition pt (i : Z) (a b : Q) : Landmark Q := mkLandmark i a b.

(** The table of the specification's end-to-end scenario: level eyes. *)
Definition level_eyes : DataFrame Q := [pt 33 200 250; pt 263 300 250].

(** An [h] x [w] x [c] array of dtype [d] whose samples are all [v]. *)
Definition flat_image (d : dtype) (h w c : nat) (v : Q) : ndarray :=
  mkArray d [h; w; c] (repeat v (h * w * c)).

(** ** What the specification says, as predicates *)

(** The tight box of a table: the extremes of its coordinates. *)
Definition min_x (df : DataFrame Q) : Q := Pd.series_min (Pd.col_x df).
Definition max_x (df : DataFrame Q) : Q := Pd.series_max (Pd.col_x df).
Definition min_y (df : DataFrame Q) : Q := Pd.series_min (Pd.col_y df).
Definition max_y (df : DataFrame Q) : Q := Pd.series_max (Pd.col_y df).


(** Start and length of one side of the box, as the code computes them from
    the extremes [mn], [mx] of a column and the padding fraction [p]. *)
Definition side_start (mn mx p : Q) : Z := int (max0 (mn - (mx - mn) * p)).
Definition side_length (mn mx p : Q) : Z :=
  int (mx + (mx - mn) * p - max0 (mn - (mx - mn) * p)).


(** The box returned with a square crop lies within the image and has the
    dimensions of the crop: [h] rows by [w] columns. *)
Definition box_matches_crop (image crop : ndarray) (b : BBox) : Prop :=
  let '(x1, y1, w, h) := b in
  exists (H W rows cols : nat) (rest : list nat),
    nd_shape image = H :: W :: rest
    /\ nd_shape crop = rows :: cols :: rest
    /\ 0 <= x1 /\ 0 <= y1
    /\ x1 + w <= Z.of_nat W /\ y1 + h <= Z.of_nat H
    /\ Z.of_nat rows = h /\ Z.of_nat cols = w.

Definition square_crop_in_image (image : ndarray)
    (r : result (option (ndarray * BBox))) : Prop :=
  exists crop b, r = Ok (Some (crop, b)) /\ box_matches_crop image crop b.

(** The crop is exactly [side] x [side] pixels. *)
Definition exact_square (side : Z) (r : result (option (ndarray * BBox))) : Prop :=
  exists crop b (rows cols : nat) (rest : list nat),
    r = Ok (Some (crop, b))
    /\ nd_shape crop = rows :: cols :: rest
    /\ Z.of_nat rows = side /\ Z.of_nat cols = side.

(** The shapes the normalizer brings to three channels: a 2-D grid, or a 3-D
    array of 3 or 4 channels. *)
Definition rgb_like (shape : list nat) : bool :=
  match shape with
  | [_; _] => true
  | [_; _; c] => (c =? 3)%nat || (c =? 4)%nat
  | _ => false
  end.

(** The shape of the input once the batch axis of a 4-D tensor or array is
    stripped. *)
Definition stripped_shape (image : image_input) : list nat :=
  match image with
  | PyNone => []
  | PILImage a => nd_shape a
  | Tensor a | NdArray a =>
      if (length (nd_shape a) =? 4)%nat then tl (nd_shape a) else nd_shape a
  end.

(** The inputs whose samples the normalizer returns as 8-bit: every tensor,
    a uint8 array or decoded image, and a float32 array of maximum at most
    1.0. *)
Definition to_8bit (image : image_input) : bool :=
  match image with
  | PyNone => false
  | Tensor _ => true
  | PILImage a => dtype_eqb (nd_dtype a) UInt8
  | NdArray a =>
      match nd_dtype a with
      | UInt8 => true
      | Float32 => Qle_bool (Pd.series_max (nd_data a)) 1
      | Float64 => false
      end
  end.

(** The array an input carries, and its well-formedness. *)
Definition wf_input (image : image_input) : bool :=
  match image with
  | PyNone => true
  | Tensor a | PILImage a | NdArray a => wf a
  end.

(** 8-bit RGB: uint8 samples of [0, 255], exactly three channels and no
    batch axis. *)
Definition canonical (r : ndarray) : Prop :=
  nd_dtype r = UInt8
  /\ forallb is_uint8 (nd_data r) = true
  /\ exists h w, nd_shape r = [h; w; 3%nat].

(** The table has a row of index [i]. *)
Definition has_index (df : DataFrame Q) (i : Z) : Prop :=
  exists r, In r df /\ lm_index r = i.

(** [l] and [r] are the rows [calculate_rotation_angle] takes as the left and
    the right eye of [df]. *)
Definition eyes (df : DataFrame Q) (l r : Landmark Q) : Prop :=
  Pd.iloc0 (Pd.select_index df LEFT_EYE) = Ok l
  /\ Pd.iloc0 (Pd.select_index df RIGHT_EYE) = Ok r.

(** The eyes [l'], [r'] are the eyes [l], [r] with their positions exchanged. *)
Definition eyes_swapped (l r l' r' : Landmark Q) : Prop :=
  (lm_x l' == lm_x r /\ lm_y l' == lm_y r /\
   lm_x r' == lm_x l /\ lm_y r' == lm_y l)%Q.

(** A resampler that hands the image back, and eyes that are not level, to
    run [rotate_image] and [resize_image] on. *)
Definition keep_image {A B : Type} (a : ndarray) (_ : A) (_ : B) : result ndarray :=
  Ok a.



(** The first image of a batch. *)
Definition first_item (a : ndarray) : ndarray :=
  mkArray (nd_dtype a) (tl (nd_shape a))
    (firstn (size_of (tl (nd_shape a))) (nd_data a)).

(** * Properties *)

(** The end-to-end scenario of the specification: level eyes at (200, 250)
    and (300, 250), padding 0.2, on a 512 x 512 image. *)
Example calculate_face_bbox_level_eyes :
  calculate_face_bbox (Some level_eyes) (2 # 10) = Some (180, 250, 140, 0).
Proof. vm_compute. reflexivity. Qed.

Example square_region_level_eyes :
  square_region (180, 250, 140, 0) 512 512 = (180, 180, 320, 320).
Proof. vm_compute. reflexivity. Qed.

(** ** Truncation and clamping of rationals *)

Lemma int_floor (q : Q) : (0 <= q)%Q -> int q = Qfloor q.
Proof.
  destruct q as [n d]. unfold Qle, int, Qfloor. simpl. intros H.
  apply Z.quot_div_nonneg; lia.
Qed.

Lemma int_opp (q : Q) : int (- q) = - int q.
Proof.
  destruct q as [n d]. unfold int. simpl. apply Z.quot_opp_l. lia.
Qed.

Lemma int_comp (q q' : Q) : (q == q')%Q -> int q = int q'.
Proof.
  intros E. destruct (Qlt_le_dec q 0) as [Hn | Hp].
  - assert (Hq : (0 <= - q)%Q) by lra.
    assert (Hq' : (0 <= - q')%Q) by lra.
    assert (Hi : int (- q) = int (- q')).
    { rewrite (int_floor _ Hq), (int_floor _ Hq'). apply Qfloor_comp. lra. }
    rewrite !int_opp in Hi. lia.
  - assert (Hp' : (0 <= q')%Q) by lra.
    rewrite (int_floor _ Hp), (int_floor _ Hp'). apply Qfloor_comp. exact E.
Qed.

Lemma int_nonneg (q : Q) : (0 <= q)%Q -> 0 <= int q.
Proof.
  intros H. rewrite (int_floor _ H).
  change 0 with (Qfloor 0). apply Qfloor_resp_le. exact H.
Qed.


Lemma max0_nonneg (v : Q) : (0 <= max0 v)%Q.
Proof.
  unfold max0. destruct (Qle_bool v 0) eqn:E.
  - lra.
  - destruct (Qlt_le_dec 0 v) as [H | H]; [lra |].
    apply Qle_bool_iff in H. congruence.
Qed.

Lemma max0_of_nonneg (v : Q) : (0 <= v)%Q -> (max0 v == v)%Q.
Proof.
  intros H. unfold max0. destruct (Qle_bool v 0) eqn:E.
  - apply Qle_bool_iff in E. lra.
  - reflexivity.
Qed.

Lemma max0_of_nonpos (v : Q) : (v <= 0)%Q -> max0 v = 0%Q.
Proof.
  intros H. unfold max0. apply Qle_bool_iff in H. rewrite H. reflexivity.
Qed.

(** ** Column minimum and maximum *)

Lemma fold_min_le (vs : list Q) (a : Q) :
  (fold_left Qmin vs a <= a)%Q /\ (forall v, In v vs -> fold_left Qmin vs a <= v)%Q.
Proof.
  revert a. induction vs as [| b vs IH]; intros a; simpl.
  - split; [lra | tauto].
  - destruct (IH (Qmin a b)) as [H1 H2]. split.
    + pose proof (Q.le_min_l a b). lra.
    + intros v [-> | Hv]; [| auto].
      pose proof (Q.le_min_r a v). lra.
Qed.

Lemma fold_max_ge (vs : list Q) (a : Q) :
  (a <= fold_left Qmax vs a)%Q /\ (forall v, In v vs -> v <= fold_left Qmax vs a)%Q.
Proof.
  revert a. induction vs as [| b vs IH]; intros a; simpl.
  - split; [lra | tauto].
  - destruct (IH (Qmax a b)) as [H1 H2]. split.
    + pose proof (Q.le_max_l a b). lra.
    + intros v [-> | Hv]; [| auto].
      pose proof (Q.le_max_r a v). lra.
Qed.

Lemma Qmin_pick (a b : Q) : Qmin a b = a \/ Qmin a b = b.
Proof.
  unfold Qmin, GenericMinMax.gmin. destruct (a ?= b)%Q; auto.
Qed.

Lemma Qmax_pick (a b : Q) : Qmax a b = a \/ Qmax a b = b.
Proof.
  unfold Qmax, GenericMinMax.gmax. destruct (a ?= b)%Q; auto.
Qed.

Lemma fold_min_In (vs : list Q) (a : Q) : In (fold_left Qmin vs a) (a :: vs).
Proof.
  revert a. induction vs as [| b vs IH]; intros a; simpl.
  - now left.
  - destruct (IH (Qmin a b)) as [H | H].
    + destruct (Qmin_pick a b) as [E | E]; rewrite E in *; auto.
    + auto.
Qed.

Lemma fold_max_In (vs : list Q) (a : Q) : In (fold_left Qmax vs a) (a :: vs).
Proof.
  revert a. induction vs as [| b vs IH]; intros a; simpl.
  - now left.
  - destruct (IH (Qmax a b)) as [H | H].
    + destruct (Qmax_pick a b) as [E | E]; rewrite E in *; auto.
    + auto.
Qed.

Lemma series_min_le (s : list Q) (v : Q) : In v s -> (Pd.series_min s <= v)%Q.
Proof.
  destruct s as [| a vs]; simpl; [tauto |].
  destruct (fold_min_le vs a) as [H1 H2]. intros [<- | Hv]; auto.
Qed.

Lemma series_max_ge (s : list Q) (v : Q) : In v s -> (v <= Pd.series_max s)%Q.
Proof.
  destruct s as [| a vs]; simpl; [tauto |].
  destruct (fold_max_ge vs a) as [H1 H2]. intros [<- | Hv]; auto.
Qed.

Lemma series_min_In (s : list Q) : s <> [] -> In (Pd.series_min s) s.
Proof.
  destruct s as [| a vs]; [congruence | intros _; apply fold_min_In].
Qed.

Lemma series_max_In (s : list Q) : s <> [] -> In (Pd.series_max s) s.
Proof.
  destruct s as [| a vs]; [congruence | intros _; apply fold_max_In].
Qed.

Lemma series_min_le_max (s : list Q) : (Pd.series_min s <= Pd.series_max s)%Q.
Proof.
  destruct s as [| a vs].
  - simpl. lra.
  - apply series_min_le, series_max_In. discriminate.
Qed.

Lemma max0_comp (a b : Q) : (a == b)%Q -> (max0 a == max0 b)%Q.
Proof.
  intros E. destruct (Qlt_le_dec 0 a) as [H | H].
  - rewrite !max0_of_nonneg; lra.
  - rewrite !max0_of_nonpos; lra.
Qed.

(** ** calculate_face_bbox, one axis at a time *)

Lemma calculate_face_bbox_sides (df : DataFrame Q) (p : Q) :
  df <> [] ->
  calculate_face_bbox (Some df) p
  = Some (side_start (min_x df) (max_x df) p, side_start (min_y df) (max_y df) p,
          side_length (min_x df) (max_x df) p, side_length (min_y df) (max_y df) p).
Proof.
  intros H. unfold calculate_face_bbox. destruct df as [| r rs]; [congruence |].
  reflexivity.
Qed.

Lemma calculate_face_bbox_some (df : option (DataFrame Q)) (p : Q) (b : BBox) :
  calculate_face_bbox df p = Some b -> exists d, df = Some d /\ d <> [].
Proof.
  destruct df as [[| r rs] |]; simpl; try discriminate.
  intros _. exists (r :: rs). split; [reflexivity | discriminate].
Qed.

Lemma side_start_nonneg (mn mx p : Q) : 0 <= side_start mn mx p.
Proof. apply int_nonneg, max0_nonneg. Qed.



Lemma side_length_nonneg (mn mx p : Q) :
  (0 <= mn)%Q -> (mn <= mx)%Q -> (- (1 # 2) <= p)%Q -> 0 <= side_length mn mx p.
Proof.
  intros H0 Hle Hp. apply int_nonneg.
  assert (Hm : (0 <= (mx - mn) * (p + (1 # 2)))%Q)
    by (apply Qmult_le_0_compat; lra).
  destruct (Qlt_le_dec 0 (mn - (mx - mn) * p)) as [H | H].
  - rewrite max0_of_nonneg by lra. lra.
  - rewrite (max0_of_nonpos _ H). lra.
Qed.


(** ** C8 *)

(** C8, as stated, fails: with padding -1 the box of two landmarks has
    negative width and height; and so has, without any padding, the box of
    landmarks left of and above the origin. *)
Lemma calculate_face_bbox_negative_padding_counterexample :
  calculate_face_bbox (Some [pt 33 100 100; pt 263 200 200]) (-1)
  = Some (200, 200, -100, -100)
  /\ calculate_face_bbox (Some [pt 33 (-50) (-50); pt 263 (-10) (-10)]) 0
     = Some (0, 0, -10, -10)
  /\ ~ (0 <= -100).
Proof. split; [| split]; [vm_compute; reflexivity .. | lia]. Qed.

(** C8 (amended): for every landmark table and every padding, negative or
    not, the x and y of the box returned by [calculate_face_bbox] are
    non-negative; its width and height are non-negative whenever the padding
    is at least -1/2 and no landmark has a negative coordinate. *)
Theorem calculate_face_bbox_nonneg (df : DataFrame Q) (p : Q) (x y w h : Z) :
  calculate_face_bbox (Some df) p = Some (x, y, w, h) ->
  0 <= x /\ 0 <= y /\
  ((- (1 # 2) <= p)%Q ->
   Forall (fun r => (0 <= lm_x r)%Q /\ (0 <= lm_y r)%Q) df ->
   0 <= w /\ 0 <= h).
Proof.
  intros Hb. destruct (calculate_face_bbox_some _ _ _ Hb) as [d [Ed Hne]].
  injection Ed as <-. rewrite (calculate_face_bbox_sides df p Hne) in Hb.
  injection Hb as <- <- <- <-.
  split; [apply side_start_nonneg |]. split; [apply side_start_nonneg |].
  intros Hp Hall. rewrite Forall_forall in Hall.
  assert (Hx : (0 <= min_x df)%Q).
  { pose proof (series_min_In (Pd.col_x df)) as Hin.
    assert (Hc : Pd.col_x df <> []) by (destruct df; [congruence | discriminate]).
    apply Hin in Hc. unfold Pd.col_x in Hc. apply in_map_iff in Hc.
    destruct Hc as [r [Er Hr]]. unfold min_x, Pd.col_x. rewrite <- Er.
    apply (Hall r Hr). }
  assert (Hy : (0 <= min_y df)%Q).
  { pose proof (series_min_In (Pd.col_y df)) as Hin.
    assert (Hc : Pd.col_y df <> []) by (destruct df; [congruence | discriminate]).
    apply Hin in Hc. unfold Pd.col_y in Hc. apply in_map_iff in Hc.
    destruct Hc as [r [Er Hr]]. unfold min_y, Pd.col_y. rewrite <- Er.
    apply (Hall r Hr). }
  split; apply side_length_nonneg; try assumption; apply series_min_le_max.
Qed.

Lemma calculate_face_bbox_nonneg_witness :
  calculate_face_bbox (Some level_eyes) (2 # 10) = Some (180, 250, 140, 0)
  /\ 0 <= 180 /\ 0 <= 250 /\ 0 <= 140 /\ 0 <= 0.
Proof.
  assert (E : calculate_face_bbox (Some level_eyes) (2 # 10)
              = Some (180, 250, 140, 0)) by (vm_compute; reflexivity).
  split; [exact E |].
  destruct (calculate_face_bbox_nonneg level_eyes (2 # 10) 180 250 140 0 E)
    as [Hx [Hy Hwh]].
  destruct Hwh as [Hw Hh].
  - vm_compute. discriminate.
  - repeat constructor; vm_compute; discriminate.
  - repeat split; assumption.
Defined.

(** ** C2 *)




(** ** Slicing *)

Lemma slice_bound_range (n : nat) (i : Z) : 0 <= slice_bound n i <= Z.of_nat n.
Proof. unfold slice_bound. destruct (i <? 0) eqn:E; lia. Qed.

Lemma slice_range_fits (n : nat) (start stop : Z) :
  (fst (slice_range n start stop) + snd (slice_range n start stop) <= n)%nat.
Proof.
  unfold slice_range. simpl.
  pose proof (slice_bound_range n start). pose proof (slice_bound_range n stop).
  lia.
Qed.

(** A slice that lies inside the axis keeps its bounds. *)
Lemma slice_range_inside (n : nat) (a b : Z) :
  0 <= a -> a <= b -> b <= Z.of_nat n ->
  slice_range n a b = (Z.to_nat a, Z.to_nat (b - a)).
Proof.
  intros Ha Hab Hb. unfold slice_range, slice_bound.
  destruct (a <? 0) eqn:Ea; [lia |]. destruct (b <? 0) eqn:Eb; [lia |].
  rewrite !Z.min_l by lia. reflexivity.
Qed.

(** A slice that starts at a non-negative bound and does not run backwards
    is cut at the end of the axis. *)
Lemma slice_range_clipped (n : nat) (a b : Z) :
  0 <= a -> a <= b ->
  slice_range n a b
  = (Z.to_nat (Z.min a (Z.of_nat n)),
     Z.to_nat (Z.min b (Z.of_nat n) - Z.min a (Z.of_nat n))).
Proof.
  intros Ha Hab. unfold slice_range, slice_bound.
  destruct (a <? 0) eqn:Ea; [lia |]. destruct (b <? 0) eqn:Eb; [lia |].
  reflexivity.
Qed.

Lemma slice2_shape (a : ndarray) (h w : nat) (rest : list nat) (y1 y2 x1 x2 : Z) :
  nd_shape a = h :: w :: rest ->
  exists c, slice2 a y1 y2 x1 x2 = Ok c
            /\ nd_dtype c = nd_dtype a
            /\ nd_shape c
               = snd (slice_range h y1 y2) :: snd (slice_range w x1 x2) :: rest.
Proof.
  intros Hs. unfold slice2. rewrite Hs.
  destruct (slice_range h y1 y2) as [r0 rn], (slice_range w x1 x2) as [c0 cn].
  eexists. split; [reflexivity |]. split; reflexivity.
Qed.

Lemma chunks_length {A : Type} (k n : nat) (l : list A) :
  length (chunks k n l) = n.
Proof. revert l. induction n as [| n IH]; intros l; simpl; [| rewrite IH]; reflexivity. Qed.

Lemma chunks_rows {A : Type} (k n : nat) (l : list A) :
  length l = (n * k)%nat -> Forall (fun row => length row = k) (chunks k n l).
Proof.
  revert l. induction n as [| n IH]; intros l Hl; simpl; constructor.
  - rewrite length_firstn. simpl in Hl. lia.
  - apply IH. rewrite length_skipn. simpl in Hl. lia.
Qed.

Lemma Forall_firstn {A : Type} (P : A -> Prop) (n : nat) (l : list A) :
  Forall P l -> Forall P (firstn n l).
Proof.
  intros H. revert n. induction H as [| a l Ha Hl IH]; intros [| n]; simpl;
    constructor; auto.
Qed.

Lemma Forall_skipn {A : Type} (P : A -> Prop) (n : nat) (l : list A) :
  Forall P l -> Forall P (skipn n l).
Proof.
  intros H. revert n. induction H as [| a l Ha Hl IH]; intros [| n]; simpl;
    auto.
Qed.

Lemma flat_map_length_const {A B : Type} (f : A -> list B) (m : nat) (l : list A) :
  Forall (fun a => length (f a) = m) l -> length (flat_map f l) = (length l * m)%nat.
Proof.
  induction 1 as [| a l Ha Hl IH]; simpl; [reflexivity |].
  rewrite length_app, Ha, IH. reflexivity.
Qed.

(** Slicing an array that holds as many samples as its shape says gives one
    that does. *)
Lemma slice2_size (a c : ndarray) (y1 y2 x1 x2 : Z) :
  length (nd_data a) = size_of (nd_shape a) ->
  slice2 a y1 y2 x1 x2 = Ok c ->
  length (nd_data c) = size_of (nd_shape c).
Proof.
  intros Hlen. unfold slice2.
  destruct (nd_shape a) as [| h [| w rest]] eqn:Hs; try discriminate.
  pose proof (slice_range_fits h y1 y2) as Fr.
  pose proof (slice_range_fits w x1 x2) as Fc.
  destruct (slice_range h y1 y2) as [r0 rn], (slice_range w x1 x2) as [c0 cn].
  simpl in Fr, Fc. intros E. injection E as <-. simpl.
  change (fold_right Nat.mul 1%nat rest) with (size_of rest).
  simpl in Hlen. change (fold_right Nat.mul 1%nat rest) with (size_of rest) in Hlen.
  set (inner := size_of rest) in *.
  assert (Hrows : Forall (fun row => length row = (w * inner)%nat)
                    (firstn rn (skipn r0 (chunks (w * inner) h (nd_data a))))).
  { apply Forall_firstn, Forall_skipn, chunks_rows. exact Hlen. }
  rewrite (flat_map_length_const _ (cn * inner)).
  - rewrite length_firstn, length_skipn, chunks_length.
    rewrite Nat.min_l by lia. reflexivity.
  - eapply Forall_impl; [| exact Hrows]. intros row Hr. simpl in Hr.
    rewrite length_firstn, length_skipn, Hr.
    apply Nat.min_l. rewrite <- Nat.mul_sub_distr_r.
    apply Nat.mul_le_mono_r. lia.
Qed.

(** ** The square region *)

(** Case analysis on the two adjustments, with the three halvings named. *)
Ltac solve_region w h :=
  pose proof (Z.div_mod w 2 ltac:(lia));
  pose proof (Z.mod_pos_bound w 2 ltac:(lia));
  pose proof (Z.div_mod h 2 ltac:(lia));
  pose proof (Z.mod_pos_bound h 2 ltac:(lia));
  pose proof (Z.div_mod (Z.max w h) 2 ltac:(lia));
  pose proof (Z.mod_pos_bound (Z.max w h) 2 ltac:(lia));
  generalize dependent (Z.max w h / 2);
  generalize dependent (Z.max w h mod 2);
  generalize dependent (w / 2); generalize dependent (w mod 2);
  generalize dependent (h / 2); generalize dependent (h mod 2);
  intros;
  repeat match goal with
         | |- context [if ?a <? ?b then _ else _] => destruct (Z.ltb_spec a b)
         end;
  lia.

Lemma square_region_in_image (x y w h W H : Z) :
  0 <= x -> 0 <= y -> 0 <= w -> 0 <= h -> 0 <= W -> 0 <= H ->
  forall x1 y1 x2 y2,
    square_region (x, y, w, h) W H = (x1, y1, x2, y2) ->
    0 <= x1 /\ x1 <= x2 /\ x2 <= W /\ 0 <= y1 /\ y1 <= y2 /\ y2 <= H.
Proof.
  intros Hx Hy Hw Hh HW HH x1 y1 x2 y2. unfold square_region.
  intros E. injection E as <- <- <- <-.
  solve_region w h.
Qed.

(** The side the shift preserves: wherever the centred square does not
    overrun the left or the top of the image, and the image is at least
    [crop_size] in both dimensions, the region is exactly
    [crop_size] x [crop_size], also where it touches the right or the bottom
    edge. *)
Lemma square_region_exact (x y w h W H : Z) :
  0 <= w -> 0 <= h ->
  Z.max w h <= W -> Z.max w h <= H ->
  Z.max w h <= x + w / 2 + Z.max w h / 2 ->
  Z.max w h <= y + h / 2 + Z.max w h / 2 ->
  forall x1 y1 x2 y2,
    square_region (x, y, w, h) W H = (x1, y1, x2, y2) ->
    x2 - x1 = Z.max w h /\ y2 - y1 = Z.max w h.
Proof.
  intros Hw Hh HW HH Hl Ht x1 y1 x2 y2. unfold square_region.
  intros E. injection E as <- <- <- <-.
  solve_region w h.
Qed.

(** ** crop_face_to_square *)

Lemma shape_at_0 (a : ndarray) (h : nat) (rest : list nat) :
  nd_shape a = h :: rest -> shape_at a 0 = Ok (Z.of_nat h).
Proof. intros E. unfold shape_at. rewrite E. reflexivity. Qed.

Lemma shape_at_1 (a : ndarray) (h w : nat) (rest : list nat) :
  nd_shape a = h :: w :: rest -> shape_at a 1 = Ok (Z.of_nat w).
Proof. intros E. unfold shape_at. rewrite E. reflexivity. Qed.

(** On an image of two axes or more, [crop_face_to_square] returns the slice
    of the region [square_region] computes, and that region as a box. *)
Lemma crop_face_to_square_region (image : ndarray) (df : option (DataFrame Q))
    (p : Q) (b : BBox) (H W : nat) (rest : list nat) (x1 y1 x2 y2 : Z) :
  calculate_face_bbox df p = Some b ->
  nd_shape image = H :: W :: rest ->
  square_region b (Z.of_nat W) (Z.of_nat H) = (x1, y1, x2, y2) ->
  exists crop,
    crop_face_to_square image df p = Ok (Some (crop, (x1, y1, x2 - x1, y2 - y1)))
    /\ slice2 image y1 y2 x1 x2 = Ok crop.
Proof.
  intros Hb Hs Hr. unfold crop_face_to_square. rewrite Hb.
  rewrite (shape_at_1 _ _ _ _ Hs), (shape_at_0 _ _ _ Hs). simpl. rewrite Hr.
  destruct (slice2_shape image H W rest y1 y2 x1 x2 Hs) as [c [Ec _]].
  exists c. rewrite Ec. split; reflexivity.
Qed.

(** ** C10 *)

(** C10, as stated, fails: a padding below -1/2 gives a box of negative width
    and height, which [crop_face_to_square] passes on while the crop is
    empty. *)
Lemma crop_face_to_square_negative_box_counterexample :
  let image := flat_image UInt8 8 8 3 0 in
  let df := Some [pt 33 2 2; pt 263 6 6] in
  (exists crop,
     crop_face_to_square image df (-1) = Ok (Some (crop, (6, 6, -4, -4)))
     /\ nd_shape crop = [0; 0; 3]%nat)
  /\ ~ square_crop_in_image image (crop_face_to_square image df (-1)).
Proof.
  split.
  - eexists. split; vm_compute; reflexivity.
  - intros [crop [b [E M]]]. vm_compute in E. injection E as <- <-.
    destruct M as [H [W [rows [cols [rest M]]]]].
    destruct M as [_ [_ [_ [_ [_ [_ [Hr _]]]]]]]. lia.
Qed.

(** C10 (amended): for every image of two axes or more and every landmark
    table whose padded box has non-negative width and height, the box
    [(x1, y1, w, h)] returned by [crop_face_to_square] lies within the image
    and the returned crop is [h] rows by [w] columns, with as many samples as
    that shape says when the image has. *)
Theorem crop_face_to_square_box_in_image (image : ndarray)
    (df : option (DataFrame Q)) (p : Q) (x y w h : Z)
    (H W : nat) (rest : list nat) :
  calculate_face_bbox df p = Some (x, y, w, h) ->
  0 <= w -> 0 <= h ->
  nd_shape image = H :: W :: rest ->
  square_crop_in_image image (crop_face_to_square image df p)
  /\ (length (nd_data image) = size_of (nd_shape image) ->
      forall crop b, crop_face_to_square image df p = Ok (Some (crop, b)) ->
                     length (nd_data crop) = size_of (nd_shape crop)).
Proof.
  intros Hb Hw Hh Hs.
  destruct (calculate_face_bbox_some _ _ _ Hb) as [d [-> Hne]].
  pose proof Hb as Hxy. rewrite (calculate_face_bbox_sides d p Hne) in Hxy.
  assert (Hx : 0 <= x) by (injection Hxy as <- _ _ _; apply side_start_nonneg).
  assert (Hy : 0 <= y) by (injection Hxy as _ <- _ _; apply side_start_nonneg).
  destruct (square_region (x, y, w, h) (Z.of_nat W) (Z.of_nat H))
    as [[[x1 y1] x2] y2] eqn:Hr.
  destruct (crop_face_to_square_region image (Some d) p _ H W rest _ _ _ _ Hb Hs Hr)
    as [crop [Ec Esl]].
  destruct (square_region_in_image x y w h (Z.of_nat W) (Z.of_nat H)
              Hx Hy Hw Hh ltac:(lia) ltac:(lia) _ _ _ _ Hr)
    as [Hx1 [Hx12 [Hx2 [Hy1 [Hy12 Hy2]]]]].
  split.
  - exists crop, (x1, y1, x2 - x1, y2 - y1). split; [exact Ec |].
    destruct (slice2_shape image H W rest y1 y2 x1 x2 Hs) as [c [Ec' [_ Hsh]]].
    rewrite Esl in Ec'. injection Ec' as <-.
    rewrite (slice_range_inside H y1 y2), (slice_range_inside W x1 x2) in Hsh
      by lia.
    simpl in Hsh.
    exists H, W, (Z.to_nat (y2 - y1)), (Z.to_nat (x2 - x1)), rest.
    repeat split; try assumption; lia.
  - intros Hlen crop' b' E'. rewrite Ec in E'. injection E' as <- _.
    exact (slice2_size image crop y1 y2 x1 x2 Hlen Esl).
Qed.

Lemma crop_face_to_square_box_in_image_witness :
  square_crop_in_image (flat_image UInt8 8 8 3 0)
    (crop_face_to_square (flat_image UInt8 8 8 3 0)
       (Some [pt 33 5 2; pt 263 7 6]) (1 # 4)).
Proof.
  apply (crop_face_to_square_box_in_image (flat_image UInt8 8 8 3 0)
           (Some [pt 33 5 2; pt 263 7 6]) (1 # 4) 4 1 3 6 8 8 [3%nat]).
  - vm_compute. reflexivity.
  - lia.
  - lia.
  - reflexivity.
Defined.

(** ** C1 *)

(** Where the shift works: on an image at least [crop_size] in both
    dimensions, a box of non-negative size whose centred square does not
    overrun the left or the top of the image is cropped to exactly
    [crop_size] x [crop_size], also when the square touches or overruns the
    right or the bottom edge. *)
Lemma crop_face_to_square_exact_away_from_left_top (image : ndarray)
    (df : option (DataFrame Q)) (p : Q) (x y w h : Z)
    (H W : nat) (rest : list nat) :
  calculate_face_bbox df p = Some (x, y, w, h) ->
  0 <= w -> 0 <= h ->
  nd_shape image = H :: W :: rest ->
  Z.max w h <= Z.of_nat W -> Z.max w h <= Z.of_nat H ->
  Z.max w h <= x + w / 2 + Z.max w h / 2 ->
  Z.max w h <= y + h / 2 + Z.max w h / 2 ->
  exact_square (crop_size_of (x, y, w, h)) (crop_face_to_square image df p).
Proof.
  intros Hb Hw Hh Hs HW HH Hl Ht.
  destruct (calculate_face_bbox_some _ _ _ Hb) as [d [-> Hne]].
  pose proof Hb as Hxy. rewrite (calculate_face_bbox_sides d p Hne) in Hxy.
  assert (Hx : 0 <= x) by (injection Hxy as <- _ _ _; apply side_start_nonneg).
  assert (Hy : 0 <= y) by (injection Hxy as _ <- _ _; apply side_start_nonneg).
  destruct (square_region (x, y, w, h) (Z.of_nat W) (Z.of_nat H))
    as [[[x1 y1] x2] y2] eqn:Hr.
  destruct (crop_face_to_square_region image (Some d) p _ H W rest _ _ _ _ Hb Hs Hr)
    as [crop [Ec Esl]].
  destruct (square_region_in_image x y w h (Z.of_nat W) (Z.of_nat H)
              Hx Hy Hw Hh ltac:(lia) ltac:(lia) _ _ _ _ Hr)
    as [Hx1 [Hx12 [Hx2 [Hy1 [Hy12 Hy2]]]]].
  destruct (square_region_exact x y w h (Z.of_nat W) (Z.of_nat H)
              Hw Hh HW HH Hl Ht _ _ _ _ Hr) as [Ex Ey].
  destruct (slice2_shape image H W rest y1 y2 x1 x2 Hs) as [c [Ec' [_ Hsh]]].
  rewrite Esl in Ec'. injection Ec' as <-.
  rewrite (slice_range_inside H y1 y2), (slice_range_inside W x1 x2) in Hsh
    by lia.
  simpl in Hsh.
  exists crop, (x1, y1, x2 - x1, y2 - y1),
         (Z.to_nat (y2 - y1)), (Z.to_nat (x2 - x1)), rest.
  unfold crop_size_of. repeat split; try assumption; lia.
Qed.

(** Where it does not: the adjustment only ever moves [x1] and [y1], so a
    square clamped at the left edge keeps the width the clamp left it. *)
Lemma square_region_left_overrun (x y w h W H : Z) :
  0 <= x -> 0 <= w -> 0 <= h -> Z.max w h <= W ->
  x + w / 2 + Z.max w h / 2 < Z.max w h ->
  forall x1 y1 x2 y2,
    square_region (x, y, w, h) W H = (x1, y1, x2, y2) ->
    x1 = 0 /\ x2 = x + w / 2 + Z.max w h / 2 /\ x2 - x1 < Z.max w h.
Proof.
  intros Hx Hw Hh HW Hl x1 y1 x2 y2. unfold square_region.
  intros E. injection E as <- <- <- <-.
  solve_region w h.
Qed.

(** C1: the claim fails on the code.  On a 40 x 40 image, landmarks at the
    left edge whose padded box is 10 wide and 20 high have crop_size 20, and
    the image is larger than that in both dimensions; the centred square
    overruns the left edge by 5 and the returned crop is 20 rows by 15
    columns, not 20 x 20. *)
Theorem crop_face_to_square_left_edge_not_square :
  let image := flat_image UInt8 40 40 3 0 in
  let df := Some [pt 33 0 10; pt 263 10 30] in
  calculate_face_bbox df 0 = Some (0, 10, 10, 20)
  /\ crop_size_of (0, 10, 10, 20) = 20
  /\ (exists crop,
        crop_face_to_square image df 0 = Ok (Some (crop, (0, 10, 15, 20)))
        /\ nd_shape crop = [20; 15; 3]%nat)
  /\ ~ exact_square 20 (crop_face_to_square image df 0).
Proof.
  split; [vm_compute; reflexivity |].
  split; [reflexivity |].
  split.
  - eexists. split; vm_compute; reflexivity.
  - intros [crop [b [rows [cols [rest [E [Hs [Hr Hc]]]]]]]].
    vm_compute in E. injection E as <- <-.
    injection Hs as <- <- _. lia.
Qed.

(** ** _convert_to_numpy *)

Lemma flat_map_triple_Forall (P : Q -> Prop) (l : list Q) :
  Forall P l -> Forall P (flat_map (fun v => [v; v; v]) l).
Proof.
  induction 1 as [| v l Hv Hl IH]; simpl; [constructor |].
  repeat constructor; assumption.
Qed.

Lemma drop_alpha_Forall (P : Q -> Prop) (l : list Q) :
  Forall P l -> Forall P (Cv2.drop_alpha l).
Proof.
  intros H. assert (G : forall n l, (length l <= n)%nat -> Forall P l ->
                                    Forall P (Cv2.drop_alpha l)).
  { clear. induction n as [| n IH]; intros l Hn Hl.
    - destruct l; [constructor | simpl in Hn; lia].
    - destruct l as [| r [| g [| b [| a rest]]]]; simpl; try solve [constructor].
      inversion Hl as [| ? ? Hr Hl1]; subst. inversion Hl1 as [| ? ? Hg Hl2]; subst.
      inversion Hl2 as [| ? ? Hb' Hl3]; subst. inversion Hl3 as [| ? ? Ha Hl4]; subst.
      constructor; [assumption |]. constructor; [assumption |].
      constructor; [assumption |].
      apply IH; [simpl in Hn; lia | assumption]. }
  apply (G (length l) l); [lia | exact H].
Qed.

(** A colour conversion that succeeds keeps the dtype, keeps every property
    of the samples, and gives an [h] x [w] x 3 array. *)
Lemma cvtColor_ok (src r : ndarray) (code : Cv2.color_code) :
  Cv2.cvtColor src code = Ok r ->
  nd_dtype r = nd_dtype src
  /\ (forall P : Q -> Prop, Forall P (nd_data src) -> Forall P (nd_data r))
  /\ exists h w, nd_shape r = [h; w; 3%nat].
Proof.
  unfold Cv2.cvtColor.
  destruct (negb (Cv2.depth_ok (nd_dtype src)) || (size_of (nd_shape src) =? 0)%nat);
    [discriminate |].
  destruct code;
    destruct (nd_shape src) as [| h [| w [| c [| d rest]]]] eqn:Hs;
    try discriminate;
    try (destruct c as [| [| [| [| [| c]]]]]; try discriminate);
    intros E; injection E as <-; simpl; try rewrite Hs;
    (split; [reflexivity |]); (split; [| eauto]); intros P;
    first [apply flat_map_triple_Forall | apply drop_alpha_Forall | auto].
Qed.

(** The dispatch on the shape, when it succeeds: the dtype and the samples'
    properties are kept; an RGB-like shape becomes [h] x [w] x 3 and any other
    array is returned as it is; in all cases there are three axes or more. *)
Lemma convert_channels_ok (a r : ndarray) :
  convert_channels (Some a) = Ok r ->
  nd_dtype r = nd_dtype a
  /\ (forall P : Q -> Prop, Forall P (nd_data a) -> Forall P (nd_data r))
  /\ (rgb_like (nd_shape a) = true -> exists h w, nd_shape r = [h; w; 3%nat])
  /\ (rgb_like (nd_shape a) = false -> r = a)
  /\ exists h w c rest, nd_shape r = h :: w :: c :: rest.
Proof.
  unfold convert_channels.
  destruct (nd_shape a) as [| h [| w [| c rest]]] eqn:Hs; try discriminate.
  - intros E. destruct (cvtColor_ok _ _ _ E) as [Hd [Hp [h' [w' Hr]]]].
    split; [exact Hd |]. split; [exact Hp |].
    split; [eauto |]. split; [discriminate | rewrite Hr; eauto].
  - destruct (c =? 4)%nat eqn:Ec.
    + intros E. destruct (cvtColor_ok _ _ _ E) as [Hd [Hp [h' [w' Hr]]]].
      split; [exact Hd |]. split; [exact Hp |].
      split; [eauto |]. split; [| rewrite Hr; eauto].
      intros Hn. exfalso. unfold Cv2.cvtColor in E. rewrite Hs in E.
      destruct (negb _ || _); [discriminate |].
      apply Nat.eqb_eq in Ec. subst c.
      destruct rest; [simpl in Hn; discriminate | discriminate].
    + intros E. injection E as <-. rewrite Hs.
      split; [reflexivity |]. split; [auto |]. split; [| split; [reflexivity | eauto]].
      simpl. destruct rest; [| discriminate].
      rewrite Ec, orb_false_r. intros E3. apply Nat.eqb_eq in E3. subst c. eauto.
Qed.

Lemma convert_to_numpy_inv (image : image_input) (r : ndarray) :
  _convert_to_numpy image = Ok r ->
  exists a, convert_by_type image = Ok (Some a) /\ convert_channels (Some a) = Ok r.
Proof.
  unfold _convert_to_numpy. destruct (convert_by_type image) as [[a |] | e];
    simpl; try discriminate.
  intros E. exists a. split; [reflexivity | exact E].
Qed.

Lemma convert_to_numpy_axes (image : image_input) (r : ndarray) :
  _convert_to_numpy image = Ok r ->
  exists h w c rest, nd_shape r = h :: w :: c :: rest.
Proof.
  intros E. destruct (convert_to_numpy_inv _ _ E) as [a [_ Ec]].
  apply (convert_channels_ok a r Ec).
Qed.

(** ** C7 *)

(** C7, as stated, fails: a slice past the end of an axis does not raise.  The
    box of landmarks spanning 0..20 extends past a 10 x 10 image, and
    [crop_face] returns the 10 x 10 part of the image that the box covers. *)
Lemma crop_face_oversized_box_counterexample :
  let image := NdArray (flat_image UInt8 10 10 3 0) in
  let df := Some [pt 33 0 0; pt 263 20 20] in
  calculate_face_bbox df 0 = Some (0, 0, 20, 20)
  /\ raises (crop_face image df 0) = false
  /\ exists crop, crop_face image df 0 = Ok (Some crop)
                  /\ nd_shape crop = [10; 10; 3]%nat.
Proof.
  split; [vm_compute; reflexivity |].
  split; [vm_compute; reflexivity |].
  eexists. split; vm_compute; reflexivity.
Qed.

(** C7 (amended): for every image the normalizer accepts and every derivable
    bounding box, also one that extends past the image bounds, [crop_face]
    raises nothing and returns a crop; for a box of non-negative width and
    height the crop is the box truncated at the bottom and right edges of the
    image: [min(y + h, H) - min(y, H)] rows and [min(x + w, W) - min(x, W)]
    columns. *)
Theorem crop_face_truncates (image : image_input) (image_np : ndarray)
    (df : option (DataFrame Q)) (p : Q) (x y w h : Z) :
  _convert_to_numpy image = Ok image_np ->
  calculate_face_bbox df p = Some (x, y, w, h) ->
  exists (H W : nat) (rest : list nat) (crop : ndarray),
    nd_shape image_np = H :: W :: rest
    /\ crop_face image df p = Ok (Some crop)
    /\ (0 <= w -> 0 <= h ->
        nd_shape crop
        = Z.to_nat (Z.min (y + h) (Z.of_nat H) - Z.min y (Z.of_nat H))
          :: Z.to_nat (Z.min (x + w) (Z.of_nat W) - Z.min x (Z.of_nat W))
          :: rest).
Proof.
  intros Hc Hb.
  destruct (convert_to_numpy_axes _ _ Hc) as [H [W [c [rest Hs]]]].
  destruct (slice2_shape image_np H W (c :: rest) y (y + h) x (x + w) Hs)
    as [crop [Esl [_ Hsh]]].
  exists H, W, (c :: rest), crop. split; [exact Hs |]. split.
  - unfold crop_face. rewrite Hc. simpl. rewrite Hb, Esl. reflexivity.
  - intros Hw Hh.
    destruct (calculate_face_bbox_some _ _ _ Hb) as [d [-> Hne]].
    rewrite (calculate_face_bbox_sides d p Hne) in Hb.
    assert (Hx : 0 <= x) by (injection Hb as <- _ _ _; apply side_start_nonneg).
    assert (Hy : 0 <= y) by (injection Hb as _ <- _ _; apply side_start_nonneg).
    rewrite Hsh, (slice_range_clipped H y (y + h)), (slice_range_clipped W x (x + w))
      by lia.
    reflexivity.
Qed.

Lemma crop_face_truncates_witness :
  exists (H W : nat) (rest : list nat) (crop : ndarray),
    nd_shape (flat_image UInt8 10 10 3 0) = H :: W :: rest
    /\ crop_face (NdArray (flat_image UInt8 10 10 3 0))
         (Some [pt 33 4 4; pt 263 24 24]) 0 = Ok (Some crop)
    /\ (0 <= 20 -> 0 <= 20 ->
        nd_shape crop
        = Z.to_nat (Z.min (4 + 20) (Z.of_nat H) - Z.min 4 (Z.of_nat H))
          :: Z.to_nat (Z.min (4 + 20) (Z.of_nat W) - Z.min 4 (Z.of_nat W))
          :: rest).
Proof.
  apply (crop_face_truncates (NdArray (flat_image UInt8 10 10 3 0))
           (flat_image UInt8 10 10 3 0) (Some [pt 33 4 4; pt 263 24 24]) 0
           4 4 20 20).
  - vm_compute. reflexivity.
  - vm_compute. reflexivity.
Defined.

(** ** C4 *)







(** ** C5 *)

Lemma item0_ok (a b : ndarray) :
  item0 a = Ok b ->
  nd_dtype b = nd_dtype a
  /\ nd_shape b = tl (nd_shape a)
  /\ (forall P : Q -> Prop, Forall P (nd_data a) -> Forall P (nd_data b)).
Proof.
  unfold item0. destruct (nd_shape a) as [| [| n] rest]; try discriminate.
  intros E. injection E as <-. simpl.
  split; [reflexivity |]. split; [reflexivity |].
  intros P. apply Forall_firstn.
Qed.

Lemma to_uint8_is_uint8 (v : Q) : is_uint8 (to_uint8 v) = true.
Proof.
  unfold is_uint8, to_uint8. simpl.
  pose proof (Z.mod_pos_bound (int v) 256 ltac:(lia)) as H.
  rewrite !andb_true_iff. repeat split; lia.
Qed.

Lemma mul255_astype_uint8_samples (a : ndarray) :
  Forall (fun v => is_uint8 v = true) (nd_data (mul255_astype_uint8 a)).
Proof.
  unfold mul255_astype_uint8. simpl. apply Forall_forall. intros v Hv.
  apply in_map_iff in Hv. destruct Hv as [u [<- _]]. apply to_uint8_is_uint8.
Qed.

Lemma wf_uint8_samples (a : ndarray) :
  wf a = true -> nd_dtype a = UInt8 ->
  Forall (fun v => is_uint8 v = true) (nd_data a).
Proof.
  unfold wf. intros H Hd. rewrite Hd in H. apply andb_prop in H.
  destruct H as [_ H]. apply Forall_forall. apply forallb_forall. exact H.
Qed.

(** The batch axis, when there is one, goes: the shape after the dispatch on
    the type is the stripped shape. *)
Lemma strip_batch_ok (a b : ndarray) :
  (if (length (nd_shape a) =? 4)%nat then item0 a else Ok a) = Ok b ->
  nd_dtype b = nd_dtype a
  /\ nd_shape b = (if (length (nd_shape a) =? 4)%nat then tl (nd_shape a)
                   else nd_shape a)
  /\ (forall P : Q -> Prop, Forall P (nd_data a) -> Forall P (nd_data b)).
Proof.
  destruct (length (nd_shape a) =? 4)%nat.
  - apply item0_ok.
  - intros E. injection E as <-. auto.
Qed.

(** The rescaling of a float32 array of maximum at most 1.0. *)
Lemma rescale_ok (a b : ndarray) :
  wf a = true ->
  (if dtype_eqb (nd_dtype a) Float32
   then m <- amax a ;; Ok (if Qle_bool m 1 then mul255_astype_uint8 a else a)
   else Ok a) = Ok b ->
  nd_shape b = nd_shape a
  /\ (to_8bit (NdArray a) = true ->
      nd_dtype b = UInt8 /\ Forall (fun v => is_uint8 v = true) (nd_data b))
  /\ (to_8bit (NdArray a) = false -> b = a /\ nd_dtype a <> UInt8).
Proof.
  intros Hwf. unfold to_8bit. destruct (nd_dtype a) eqn:Ed; cbn [dtype_eqb].
  - intros E. injection E as <-. split; [reflexivity |]. split; [| discriminate].
    intros _. split; [exact Ed | apply wf_uint8_samples; assumption].
  - unfold amax. destruct (nd_data a) as [| v vs] eqn:Hdata; cbn [bind];
      [discriminate |].
    destruct (Qle_bool (Pd.series_max (v :: vs)) 1);
      intros E; injection E as <-; (split; [reflexivity |]).
    + split; [| discriminate].
      intros _. split; [reflexivity | apply mul255_astype_uint8_samples].
    + split; [discriminate |]. intros _. split; [reflexivity | congruence].
  - intros E. injection E as <-. split; [reflexivity |]. split; [discriminate |].
    intros _. split; [reflexivity | congruence].
Qed.

(** The dispatch on the type, when it succeeds: which inputs come out as
    8-bit samples, and which keep their dtype. *)
Lemma convert_by_type_ok (image : image_input) (a' : ndarray) :
  wf_input image = true ->
  convert_by_type image = Ok (Some a') ->
  nd_shape a' = stripped_shape image
  /\ (to_8bit image = true ->
      nd_dtype a' = UInt8 /\ Forall (fun v => is_uint8 v = true) (nd_data a'))
  /\ (to_8bit image = false ->
      forall a, image = NdArray a \/ image = PILImage a ->
                nd_dtype a' = nd_dtype a /\ nd_dtype a <> UInt8).
Proof.
  intros Hwf. destruct image as [| t | a | a]; unfold convert_by_type.
  - discriminate.
  - match goal with |- bind ?m _ = _ -> _ => destruct m as [b | e] eqn:Eb end;
      cbn [bind]; [| discriminate].
    intros E. injection E as E. subst a'.
    destruct (strip_batch_ok _ _ Eb) as [_ [Hs _]].
    split; [exact Hs |]. split; [| discriminate].
    intros _. split; [reflexivity | apply mul255_astype_uint8_samples].
  - intros E. injection E as E. subst a'. split; [reflexivity |]. split.
    + unfold to_8bit. intros Hd. destruct (nd_dtype a) eqn:Ed; try discriminate.
      split; [reflexivity | apply wf_uint8_samples; assumption].
    + unfold to_8bit. intros Hd b [Eb | Eb]; [discriminate |].
      injection Eb as Eb. subst b.
      split; [reflexivity |]. intros Ed. rewrite Ed in Hd. discriminate.
  - match goal with |- bind ?m _ = _ -> _ => destruct m as [b | e] eqn:Eb end;
      cbn [bind]; [| discriminate].
    match goal with |- bind ?m _ = _ -> _ => destruct m as [c | e] eqn:Ec end;
      cbn [bind]; [| discriminate].
    intros E. injection E as E. subst a'.
    destruct (rescale_ok a b Hwf Eb) as [Hsb [H8 Hf]].
    destruct (strip_batch_ok _ _ Ec) as [Hd [Hs Hp]].
    split; [| split].
    + rewrite Hs, Hsb. reflexivity.
    + intros H. destruct (H8 H) as [H1 H2]. split; [congruence | auto].
    + intros H a0 [Ea | Ea]; [| discriminate]. injection Ea as Ea. subst a0.
      destruct (Hf H) as [-> Hn]. split; [exact Hd | exact Hn].
Qed.

(** C5, as stated, fails: a float array whose dtype is not float32, or whose
    maximum exceeds 1.0, is returned as it is, with its float samples. *)
Lemma convert_to_numpy_float_counterexample :
  _convert_to_numpy (NdArray (flat_image Float64 2 2 3 (1 # 2)))
  = Ok (flat_image Float64 2 2 3 (1 # 2))
  /\ ~ canonical (flat_image Float64 2 2 3 (1 # 2))
  /\ _convert_to_numpy (NdArray (flat_image Float32 2 2 3 (3 # 2)))
     = Ok (flat_image Float32 2 2 3 (3 # 2))
  /\ ~ canonical (flat_image Float32 2 2 3 (3 # 2)).
Proof.
  split; [vm_compute; reflexivity |].
  split; [intros [H _]; discriminate |].
  split; [vm_compute; reflexivity |].
  intros [H _]. discriminate.
Qed.

(** C5 (amended): for every well-formed input on which [_convert_to_numpy]
    does not raise, the result has 8-bit samples of [0, 255] when the input is
    a tensor, a uint8 array or decoded image, or a float32 array of maximum
    at most 1.0; it has exactly 3 channels and no batch axis when the input's
    shape, without the batch axis of a 4-D tensor or array, is 2-D or is 3-D
    with 3 or 4 channels; under both conditions it is the canonical 8-bit RGB
    image.  An array or decoded image outside the first condition (a float
    array whose maximum exceeds 1.0 or whose dtype is not float32) is returned
    with its own dtype, which is not uint8. *)
Theorem convert_to_numpy_canonical_when (image : image_input) (r : ndarray) :
  wf_input image = true ->
  _convert_to_numpy image = Ok r ->
  (to_8bit image = true ->
   nd_dtype r = UInt8 /\ forallb is_uint8 (nd_data r) = true)
  /\ (rgb_like (stripped_shape image) = true ->
      exists h w, nd_shape r = [h; w; 3%nat])
  /\ (to_8bit image = true -> rgb_like (stripped_shape image) = true ->
      canonical r)
  /\ (to_8bit image = false ->
      forall a, image = NdArray a \/ image = PILImage a ->
                nd_dtype r = nd_dtype a /\ nd_dtype r <> UInt8).
Proof.
  intros Hwf E. destruct (convert_to_numpy_inv _ _ E) as [a' [Et Ec]].
  destruct (convert_by_type_ok image a' Hwf Et) as [Hs [H8 Hf]].
  destruct (convert_channels_ok a' r Ec) as [Hd [Hp [Hrgb _]]].
  rewrite Hs in Hrgb.
  assert (G8 : to_8bit image = true ->
               nd_dtype r = UInt8 /\ forallb is_uint8 (nd_data r) = true).
  { intros H. destruct (H8 H) as [Hd' Hu]. split; [congruence |].
    apply forallb_forall. apply Forall_forall. apply Hp. exact Hu. }
  split; [exact G8 |]. split; [exact Hrgb |]. split.
  - intros H Hr. destruct (G8 H) as [G1 G2]. unfold canonical. auto.
  - intros H a Ha. destruct (Hf H a Ha) as [F1 F2]. split; congruence.
Qed.

Lemma convert_to_numpy_canonical_when_witness :
  canonical (flat_image UInt8 1 2 3 255).
Proof.
  apply (convert_to_numpy_canonical_when
           (Tensor (mkArray Float32 [2; 1; 2; 3]%nat (repeat 1%Q 12)))
           (flat_image UInt8 1 2 3 255)).
  - vm_compute. reflexivity.
  - vm_compute. reflexivity.
  - reflexivity.
  - reflexivity.
Defined.

(** ** calculate_rotation_angle *)

Lemma select_index_nil (df : DataFrame Q) (i : Z) :
  Pd.select_index df i = [] <-> ~ has_index df i.
Proof.
  unfold Pd.select_index, has_index. split.
  - intros E [r [Hin Hi]].
    assert (Hf : In r (filter (fun r => lm_index r =? i) df)).
    { apply filter_In. split; [exact Hin | apply Z.eqb_eq; exact Hi]. }
    rewrite E in Hf. exact Hf.
  - intros Hn. destruct (filter (fun r => lm_index r =? i) df) as [| r rs] eqn:E;
      [reflexivity |].
    exfalso. apply Hn. exists r.
    assert (Hf : In r (filter (fun r => lm_index r =? i) df))
      by (rewrite E; now left).
    apply filter_In in Hf. destruct Hf as [Hin Hi].
    split; [exact Hin | apply Z.eqb_eq; exact Hi].
Qed.

(** What a non-empty table gives: the angle of the eye-to-eye vector, or the
    IndexError of the first eye that is missing. *)
Lemma calculate_rotation_angle_nonempty (df : DataFrame Q) :
  df <> [] ->
  calculate_rotation_angle (Some df)
  = (left_eye <- Pd.iloc0 (Pd.select_index df LEFT_EYE) ;;
     right_eye <- Pd.iloc0 (Pd.select_index df RIGHT_EYE) ;;
     Ok (degrees (arctan2 (Q2R (lm_y right_eye - lm_y left_eye))
                          (Q2R (lm_x right_eye - lm_x left_eye))))).
Proof.
  intros H. unfold calculate_rotation_angle. destruct df; [congruence | reflexivity].
Qed.

Lemma eyes_nonempty (df : DataFrame Q) (l r : Landmark Q) : eyes df l r -> df <> [].
Proof. intros [E _] ->. discriminate. Qed.

Lemma calculate_rotation_angle_eyes (df : DataFrame Q) (l r : Landmark Q) :
  eyes df l r ->
  calculate_rotation_angle (Some df)
  = Ok (degrees (arctan2 (Q2R (lm_y r) - Q2R (lm_y l)) (Q2R (lm_x r) - Q2R (lm_x l)))).
Proof.
  intros He. rewrite (calculate_rotation_angle_nonempty df (eyes_nonempty _ _ _ He)).
  destruct He as [-> ->]. cbn [bind]. rewrite !Q2R_minus. reflexivity.
Qed.

(** ** C3 *)

(** C3: [calculate_rotation_angle] raises the missing-landmark error, which
    in the code is the IndexError of [.iloc[0]], exactly when the table is
    non-empty and has no row of index 33 or no row of index 263; it raises
    nothing else; and for an absent or an empty table it returns 0.0. *)
Theorem calculate_rotation_angle_missing_landmark :
  (forall t : option (DataFrame Q),
     calculate_rotation_angle t = Raise IndexError <->
     exists df, t = Some df /\ df <> []
                /\ (~ has_index df LEFT_EYE \/ ~ has_index df RIGHT_EYE))
  /\ (forall t e, calculate_rotation_angle t = Raise e -> e = IndexError)
  /\ calculate_rotation_angle None = Ok 0%R
  /\ calculate_rotation_angle (Some []) = Ok 0%R.
Proof.
  assert (G : forall (df : DataFrame Q) (e : exn), df <> [] ->
            (calculate_rotation_angle (Some df) = Raise e <->
             e = IndexError /\
             (~ has_index df LEFT_EYE \/ ~ has_index df RIGHT_EYE))).
  { intros df e Hne. rewrite (calculate_rotation_angle_nonempty df Hne).
    rewrite <- !select_index_nil.
    destruct (Pd.select_index df LEFT_EYE) as [| l ls];
      destruct (Pd.select_index df RIGHT_EYE) as [| r rs]; simpl; split;
      try (intros E; injection E as <-; auto; fail);
      try (intros [-> _]; reflexivity);
      try discriminate.
    intros [_ [H | H]]; discriminate. }
  split; [| split; [| split; reflexivity]].
  - intros [df |]; split.
    + intros E. destruct df as [| r rs]; [discriminate |].
      exists (r :: rs). split; [reflexivity |]. split; [discriminate |].
      apply (G (r :: rs) IndexError); [discriminate | exact E].
    + intros [d [Ed [Hne Hm]]]. injection Ed as <-. apply G; auto.
    + discriminate.
    + intros [d [Ed _]]. discriminate.
  - intros [df |] e E; [| discriminate].
    destruct df as [| r rs]; [discriminate |].
    apply (G (r :: rs) e); [discriminate | exact E].
Qed.

Lemma calculate_rotation_angle_missing_landmark_witness :
  calculate_rotation_angle (Some [pt 33 200 250; pt 264 300 250]) = Raise IndexError.
Proof.
  destruct calculate_rotation_angle_missing_landmark as [H _].
  apply H. exists [pt 33 200 250; pt 264 300 250].
  split; [reflexivity |]. split; [discriminate |].
  right. intros [r [Hin Hi]]. simpl in Hin.
  destruct Hin as [<- | [<- | []]]; discriminate.
Defined.

(** ** The angle of the eye-to-eye vector *)

Lemma arctan2_level_right (x : R) : (0 <= x)%R -> arctan2 0 x = 0%R.
Proof.
  intros H. unfold arctan2.
  destruct (Rlt_dec 0 x) as [Hx | Hx].
  - unfold Rdiv. rewrite Rmult_0_l. apply atan_0.
  - destruct (Rlt_dec x 0); [lra |].
    destruct (Rlt_dec 0 0); [lra | reflexivity].
Qed.

Lemma arctan2_level_left (x : R) : (x < 0)%R -> arctan2 0 x = PI.
Proof.
  intros H. unfold arctan2.
  destruct (Rlt_dec 0 x); [lra |].
  destruct (Rlt_dec x 0); [| lra].
  destruct (Rle_dec 0 0); [| lra].
  unfold Rdiv. rewrite Rmult_0_l, atan_0. lra.
Qed.

Lemma arctan2_pos (y x : R) : (0 < y)%R -> (0 < arctan2 y x)%R.
Proof.
  intros Hy. unfold arctan2. pose proof PI_RGT_0 as Hpi.
  destruct (Rlt_dec 0 x) as [Hx | Hx].
  - rewrite <- atan_0. apply atan_increasing.
    apply Rdiv_lt_0_compat; assumption.
  - destruct (Rlt_dec x 0) as [Hx' | Hx'].
    + destruct (Rle_dec 0 y); [| lra].
      pose proof (atan_bound (y / x)). lra.
    + destruct (Rlt_dec 0 y); lra.
Qed.

(** Exchanging the two points negates both differences, which turns the
    angle by half a turn. *)
Lemma arctan2_swap (y x : R) :
  (0 < y)%R -> arctan2 (- y) (- x) = (arctan2 y x - PI)%R.
Proof.
  intros Hy. unfold arctan2.
  assert (E : forall d, d <> 0%R -> (- y / - d = y / d)%R)
    by (intros d Hd; field; exact Hd).
  destruct (Rlt_dec 0 x) as [Hx | Hx].
  - destruct (Rlt_dec 0 (- x)); [lra |].
    destruct (Rlt_dec (- x) 0); [| lra].
    destruct (Rle_dec 0 (- y)); [lra |].
    rewrite E by lra. reflexivity.
  - destruct (Rlt_dec x 0) as [Hx' | Hx'].
    + destruct (Rle_dec 0 y); [| lra].
      destruct (Rlt_dec 0 (- x)); [| lra].
      rewrite E by lra. lra.
    + destruct (Rlt_dec 0 y); [| lra].
      destruct (Rlt_dec 0 (- x)); [lra |].
      destruct (Rlt_dec (- x) 0); [lra |].
      destruct (Rlt_dec 0 (- y)); [lra |].
      destruct (Rlt_dec (- y) 0); [| lra].
      lra.
Qed.

Lemma arctan2_lt_PI (y x : R) : (0 < y)%R -> (arctan2 y x < PI)%R.
Proof.
  intros Hy. unfold arctan2. pose proof PI_RGT_0 as Hpi.
  pose proof (atan_bound (y / x)) as Hb.
  destruct (Rlt_dec 0 x); [lra |].
  destruct (Rlt_dec x 0).
  - destruct (Rle_dec 0 y); [| lra].
    assert (Ha : (atan (y / x) < 0)%R).
    { rewrite <- atan_0. apply atan_increasing.
      assert (Hi : (/ x < 0)%R) by (apply Rinv_lt_0_compat; assumption).
      unfold Rdiv. nra. }
    lra.
  - destruct (Rlt_dec 0 y); lra.
Qed.

Lemma degrees_0 : degrees 0 = 0%R.
Proof. unfold degrees. pose proof PI_neq0. field. assumption. Qed.

Lemma degrees_PI : degrees PI = 180%R.
Proof. unfold degrees. pose proof PI_neq0. field. assumption. Qed.

Lemma degrees_pos (r : R) : (0 < r)%R -> (0 < degrees r)%R.
Proof.
  intros H. unfold degrees. pose proof PI_RGT_0 as Hpi.
  apply Rdiv_lt_0_compat; lra.
Qed.

Lemma degrees_minus_PI (r : R) : degrees (r - PI) = (degrees r - 180)%R.
Proof. unfold degrees. pose proof PI_neq0. field. assumption. Qed.

(** With eyes that are not level, exchanging them flips the sign of the
    angle: it turns it by 180 degrees, toward the other side of 0. *)
Lemma swap_flips_sign (y x : R) :
  y <> 0%R ->
  let a := degrees (arctan2 y x) in
  let a' := degrees (arctan2 (- y) (- x)) in
  (0 < a /\ a' < 0 /\ a' = a - 180)%R \/ (a < 0 /\ 0 < a' /\ a' = a + 180)%R.
Proof.
  intros Hy a a'. subst a a'.
  assert (G : forall v u, (0 < v)%R ->
            (0 < degrees (arctan2 v u)
             /\ degrees (arctan2 (- v) (- u)) < 0
             /\ degrees (arctan2 (- v) (- u)) = degrees (arctan2 v u) - 180)%R).
  { intros v u Hv. rewrite (arctan2_swap v u Hv), degrees_minus_PI.
    pose proof (degrees_pos _ (arctan2_pos v u Hv)) as Hp.
    pose proof (arctan2_lt_PI v u Hv) as Hlt.
    assert (Hd : (0 < degrees (PI - arctan2 v u))%R) by (apply degrees_pos; lra).
    assert (E : degrees (PI - arctan2 v u) = (180 - degrees (arctan2 v u))%R).
    { unfold degrees. pose proof PI_neq0. field. assumption. }
    rewrite E in Hd. repeat split; lra. }
  destruct (Rlt_dec 0 y) as [Hp | Hn].
  - left. apply G. exact Hp.
  - right. assert (Hm : (0 < - y)%R) by lra.
    destruct (G (- y)%R (- x)%R Hm) as [G1 [G2 G3]].
    rewrite !Ropp_involutive in G2, G3. repeat split; lra.
Qed.

(** ** C9 *)

(** C9, as stated, fails: with level eyes and landmark 263 to the left of
    landmark 33 the eye-to-eye vector points backwards and the angle is 180
    degrees, not 0. *)
Lemma calculate_rotation_angle_level_backwards_counterexample :
  calculate_rotation_angle (Some [pt 33 300 250; pt 263 200 250]) = Ok 180%R
  /\ calculate_rotation_angle (Some [pt 33 300 250; pt 263 200 250]) <> Ok 0%R.
Proof.
  assert (E : calculate_rotation_angle (Some [pt 33 300 250; pt 263 200 250])
              = Ok 180%R).
  { rewrite (calculate_rotation_angle_eyes _ (pt 33 300 250) (pt 263 200 250))
      by (split; reflexivity).
    simpl lm_x. simpl lm_y. unfold Q2R. simpl Qnum. simpl Qden.
    replace (250 * / 1 - 250 * / 1)%R with 0%R by lra.
    rewrite arctan2_level_left by lra. rewrite degrees_PI. reflexivity. }
  split; [exact E |]. rewrite E. intros H. injection H as H. lra.
Qed.

(** C9 (amended): for every table with rows of index 33 and 263 whose eye
    landmarks have equal y, [calculate_rotation_angle] returns 0.0 when
    landmark 263 is not to the left of landmark 33, and 180.0 when it is; and
    for every table whose eye landmarks have different y, exchanging the
    positions of the two points flips the sign of the returned angle, which
    moves by 180 degrees. *)
Theorem calculate_rotation_angle_level_and_swap (df : DataFrame Q)
    (l r : Landmark Q) :
  eyes df l r ->
  ((lm_y l == lm_y r)%Q -> (lm_x l <= lm_x r)%Q ->
   calculate_rotation_angle (Some df) = Ok 0%R)
  /\ ((lm_y l == lm_y r)%Q -> (lm_x r < lm_x l)%Q ->
      calculate_rotation_angle (Some df) = Ok 180%R)
  /\ (~ (lm_y l == lm_y r)%Q ->
      forall (df' : DataFrame Q) (l' r' : Landmark Q),
        eyes df' l' r' -> eyes_swapped l r l' r' ->
        exists a a' : R,
          calculate_rotation_angle (Some df) = Ok a
          /\ calculate_rotation_angle (Some df') = Ok a'
          /\ ((0 < a /\ a' < 0 /\ a' = a - 180)%R
              \/ (a < 0 /\ 0 < a' /\ a' = a + 180)%R)).
Proof.
  intros He. rewrite (calculate_rotation_angle_eyes df l r He).
  split; [| split].
  - intros Hy Hx. apply Qeq_eqR in Hy. apply Qle_Rle in Hx.
    replace (Q2R (lm_y r) - Q2R (lm_y l))%R with 0%R by lra.
    rewrite arctan2_level_right by lra. rewrite degrees_0. reflexivity.
  - intros Hy Hx. apply Qeq_eqR in Hy. apply Qlt_Rlt in Hx.
    replace (Q2R (lm_y r) - Q2R (lm_y l))%R with 0%R by lra.
    rewrite arctan2_level_left by lra. rewrite degrees_PI. reflexivity.
  - intros Hy df' l' r' He' [Sx [Sy [Sx' Sy']]].
    rewrite (calculate_rotation_angle_eyes df' l' r' He').
    apply Qeq_eqR in Sx, Sy, Sx', Sy'. rewrite Sx, Sy, Sx', Sy'.
    eexists. eexists. split; [reflexivity |]. split; [reflexivity |].
    replace (Q2R (lm_y l) - Q2R (lm_y r))%R
      with (- (Q2R (lm_y r) - Q2R (lm_y l)))%R by lra.
    replace (Q2R (lm_x l) - Q2R (lm_x r))%R
      with (- (Q2R (lm_x r) - Q2R (lm_x l)))%R by lra.
    apply swap_flips_sign. intros E. apply Hy. apply eqR_Qeq. lra.
Qed.

Lemma calculate_rotation_angle_level_and_swap_witness :
  calculate_rotation_angle (Some level_eyes) = Ok 0%R
  /\ exists a a' : R,
       calculate_rotation_angle (Some [pt 33 200 250; pt 263 300 260]) = Ok a
       /\ calculate_rotation_angle (Some [pt 33 300 260; pt 263 200 250]) = Ok a'
       /\ ((0 < a /\ a' < 0 /\ a' = a - 180)%R
           \/ (a < 0 /\ 0 < a' /\ a' = a + 180)%R).
Proof.
  split.
  - apply (calculate_rotation_angle_level_and_swap level_eyes
             (pt 33 200 250) (pt 263 300 250)).
    + split; reflexivity.
    + reflexivity.
    + vm_compute. discriminate.
  - apply (calculate_rotation_angle_level_and_swap
             [pt 33 200 250; pt 263 300 260] (pt 33 200 250) (pt 263 300 260))
      with (l' := pt 33 300 260) (r' := pt 263 200 250).
    + split; reflexivity.
    + vm_compute. discriminate.
    + split; reflexivity.
    + repeat split; reflexivity.
Defined.

(** ** C6 *)

(** With the landmark table absent and an image that normalizes,
    [rotate_image] returns the sentinel pair. *)
Lemma rotate_image_absent_landmarks
    (warpAffine : ndarray -> (R * R * R) * (R * R * R) -> Z * Z -> result ndarray)
    (image : image_input) (image_np : ndarray) :
  _convert_to_numpy image = Ok image_np ->
  rotate_image warpAffine image None = Ok None.
Proof. intros E. unfold rotate_image. rewrite E. reflexivity. Qed.

(** An image that does not normalize makes [rotate_image] raise what the
    normalizer raises, whatever the landmark table. *)
Lemma rotate_image_propagates
    (warpAffine : ndarray -> (R * R * R) * (R * R * R) -> Z * Z -> result ndarray)
    (image : image_input) (df : option (DataFrame Q)) (e : exn) :
  _convert_to_numpy image = Raise e ->
  rotate_image warpAffine image df = Raise e.
Proof. intros E. unfold rotate_image. rewrite E. reflexivity. Qed.

(** The sibling path: [resize_image] tests [image is None] before it
    normalizes, and returns [None]. *)
Lemma resize_image_absent_image
    (resize : ndarray -> Z * Z -> result ndarray) (target_size : Z) :
  resize_image resize PyNone target_size = Ok None.
Proof. reflexivity. Qed.

(** C6: the claim fails on the code for an absent image.  [rotate_image]
    normalizes before it tests for [None], and the normalizer raises
    AttributeError on [None]; the sentinel pair is never returned for an
    absent image, with or without a landmark table. *)
Theorem rotate_image_absent_image_raises :
  forall (warpAffine : ndarray -> (R * R * R) * (R * R * R) -> Z * Z -> result ndarray)
         (df : option (DataFrame Q)),
    rotate_image warpAffine PyNone df = Raise AttributeError.
Proof. intros warpAffine df. reflexivity. Qed.

(** * Further properties of the code *)

(** ** rotate_image: what the rotation does to the landmarks *)














(** ** resize_image: the centre square *)

Lemma convert_to_numpy_not_none (image : image_input) (image_np : ndarray) :
  _convert_to_numpy image = Ok image_np -> image <> PyNone.
Proof. intros E ->. discriminate. Qed.

(** What [resize_image] does with an image that normalizes. *)
Lemma resize_image_some (resize : ndarray -> Z * Z -> result ndarray)
    (image : image_input) (image_np : ndarray) (H W : nat) (rest : list nat)
    (target_size : Z) :
  _convert_to_numpy image = Ok image_np ->
  nd_shape image_np = H :: W :: rest ->
  resize_image resize image target_size
  = (cropped_image <-
       slice2 image_np
         ((Z.of_nat H - Z.min (Z.of_nat H) (Z.of_nat W)) / 2)
         ((Z.of_nat H - Z.min (Z.of_nat H) (Z.of_nat W)) / 2
          + Z.min (Z.of_nat H) (Z.of_nat W))
         ((Z.of_nat W - Z.min (Z.of_nat H) (Z.of_nat W)) / 2)
         ((Z.of_nat W - Z.min (Z.of_nat H) (Z.of_nat W)) / 2
          + Z.min (Z.of_nat H) (Z.of_nat W)) ;;
     resized <- resize cropped_image (target_size, target_size) ;;
     Ok (Some resized)).
Proof.
  intros Hc Hs. pose proof (convert_to_numpy_not_none _ _ Hc) as Hn.
  unfold resize_image. destruct image; [congruence | | |];
    rewrite Hc; cbn [bind]; rewrite Hs; reflexivity.
Qed.

(** X4.  [resize_image] hands the resampler a centred square of the
    normalized image: its side is the smaller of height and width, it lies
    within the image (nothing is truncated), the margins left on either side
    differ by at most one pixel, and dtype and channels are those of the
    normalized image.  The result is what the resampler makes of that square
    for the size [(target_size, target_size)]. *)
Theorem resize_image_center_square (resize : ndarray -> Z * Z -> result ndarray)
    (image : image_input) (image_np : ndarray) (H W : nat) (rest : list nat)
    (target_size : Z) :
  _convert_to_numpy image = Ok image_np ->
  nd_shape image_np = H :: W :: rest ->
  exists (crop : ndarray) (start_x start_y : Z),
    slice2 image_np start_y (start_y + Z.of_nat (Nat.min H W))
                    start_x (start_x + Z.of_nat (Nat.min H W)) = Ok crop
    /\ nd_shape crop = Nat.min H W :: Nat.min H W :: rest
    /\ nd_dtype crop = nd_dtype image_np
    /\ resize_image resize image target_size
       = (resized <- resize crop (target_size, target_size) ;; Ok (Some resized))
    /\ 0 <= start_x /\ start_x + Z.of_nat (Nat.min H W) <= Z.of_nat W
    /\ 0 <= start_y /\ start_y + Z.of_nat (Nat.min H W) <= Z.of_nat H
    /\ Z.abs (start_x - (Z.of_nat W - (start_x + Z.of_nat (Nat.min H W)))) <= 1
    /\ Z.abs (start_y - (Z.of_nat H - (start_y + Z.of_nat (Nat.min H W)))) <= 1.
Proof.
  intros Hc Hs. rewrite (resize_image_some resize image image_np H W rest _ Hc Hs).
  assert (Em : Z.min (Z.of_nat H) (Z.of_nat W) = Z.of_nat (Nat.min H W)) by lia.
  rewrite Em.
  remember (Z.of_nat (Nat.min H W)) as m eqn:Hm0.
  remember ((Z.of_nat W - m) / 2) as sx eqn:Hsx0.
  remember ((Z.of_nat H - m) / 2) as sy eqn:Hsy0.
  assert (Hm : 0 <= m <= Z.of_nat W /\ m <= Z.of_nat H) by lia.
  assert (Hsx : 0 <= sx /\ 2 * sx <= Z.of_nat W - m <= 2 * sx + 1)
    by (pose proof (Z.div_mod (Z.of_nat W - m) 2 ltac:(lia));
        pose proof (Z.mod_pos_bound (Z.of_nat W - m) 2 ltac:(lia)); lia).
  assert (Hsy : 0 <= sy /\ 2 * sy <= Z.of_nat H - m <= 2 * sy + 1)
    by (pose proof (Z.div_mod (Z.of_nat H - m) 2 ltac:(lia));
        pose proof (Z.mod_pos_bound (Z.of_nat H - m) 2 ltac:(lia)); lia).
  clear Hsx0 Hsy0.
  destruct (slice2_shape image_np H W rest sy (sy + m) sx (sx + m) Hs)
    as [crop [Esl [Hd Hsh]]].
  rewrite (slice_range_inside H sy (sy + m)), (slice_range_inside W sx (sx + m))
    in Hsh by lia.
  simpl in Hsh.
  replace (Z.to_nat (sy + m - sy)) with (Nat.min H W) in Hsh by lia.
  replace (Z.to_nat (sx + m - sx)) with (Nat.min H W) in Hsh by lia.
  exists crop, sx, sy. rewrite Esl. cbn [bind].
  repeat split; try assumption; try reflexivity; lia.
Qed.

Lemma resize_image_center_square_witness :
  exists (crop : ndarray) (start_x start_y : Z),
    slice2 (flat_image UInt8 3 6 3 0) start_y (start_y + Z.of_nat (Nat.min 3 6))
                    start_x (start_x + Z.of_nat (Nat.min 3 6)) = Ok crop
    /\ nd_shape crop = [Nat.min 3 6; Nat.min 3 6; 3]%nat
    /\ nd_dtype crop = nd_dtype (flat_image UInt8 3 6 3 0)
    /\ resize_image (fun a _ => Ok a) (NdArray (flat_image UInt8 3 6 3 0)) 2
       = (resized <- Ok crop ;; Ok (Some resized))
    /\ 0 <= start_x /\ start_x + Z.of_nat (Nat.min 3 6) <= Z.of_nat 6
    /\ 0 <= start_y /\ start_y + Z.of_nat (Nat.min 3 6) <= Z.of_nat 3
    /\ Z.abs (start_x - (Z.of_nat 6 - (start_x + Z.of_nat (Nat.min 3 6)))) <= 1
    /\ Z.abs (start_y - (Z.of_nat 3 - (start_y + Z.of_nat (Nat.min 3 6)))) <= 1.
Proof.
  apply (resize_image_center_square (fun a _ => Ok a)
           (NdArray (flat_image UInt8 3 6 3 0)) (flat_image UInt8 3 6 3 0) 3 6 [3%nat] 2).
  - vm_compute. reflexivity.
  - reflexivity.
Defined.

Lemma concat_chunks {A : Type} (k n : nat) (l : list A) :
  length l = (n * k)%nat ->
  flat_map (fun row => firstn k (skipn 0 row)) (chunks k n l) = l.
Proof.
  revert l. induction n as [| n IH]; intros l Hl; simpl.
  - destruct l; [reflexivity | discriminate].
  - rewrite firstn_firstn, Nat.min_id, IH.
    + apply firstn_skipn.
    + rewrite length_skipn. simpl in Hl. lia.
Qed.

(** The slice of the whole of the first two axes is the array. *)
Lemma slice2_full (a : ndarray) (H W : nat) (rest : list nat) :
  length (nd_data a) = size_of (nd_shape a) ->
  nd_shape a = H :: W :: rest ->
  slice2 a 0 (Z.of_nat H) 0 (Z.of_nat W) = Ok a.
Proof.
  intros Hlen Hs. unfold slice2. rewrite Hs.
  rewrite (slice_range_inside H 0 (Z.of_nat H)), (slice_range_inside W 0 (Z.of_nat W))
    by lia.
  rewrite !Z.sub_0_r, !Nat2Z.id. cbn [Z.to_nat skipn].
  rewrite Hs in Hlen. simpl in Hlen.
  change (fold_right Nat.mul 1%nat rest) with (size_of rest) in Hlen.
  rewrite firstn_all2 by (rewrite chunks_length; lia).
  change (0 * size_of rest)%nat with 0%nat.
  rewrite concat_chunks by exact Hlen.
  destruct a as [d sh data]. simpl in *. subst sh. reflexivity.
Qed.

(** X5.  On an image that normalizes to a well-formed square, [resize_image]
    crops nothing: the resampler gets the whole normalized image. *)
Theorem resize_image_square_uncropped (resize : ndarray -> Z * Z -> result ndarray)
    (image : image_input) (image_np : ndarray) (side : nat) (rest : list nat)
    (target_size : Z) :
  _convert_to_numpy image = Ok image_np ->
  nd_shape image_np = side :: side :: rest ->
  length (nd_data image_np) = size_of (nd_shape image_np) ->
  resize_image resize image target_size
  = (resized <- resize image_np (target_size, target_size) ;; Ok (Some resized)).
Proof.
  intros Hc Hs Hlen.
  rewrite (resize_image_some resize image image_np side side rest _ Hc Hs).
  rewrite Z.min_id, Z.sub_diag. change (0 / 2) with 0. rewrite Z.add_0_l.
  rewrite (slice2_full image_np side side rest Hlen Hs). reflexivity.
Qed.

Lemma resize_image_square_uncropped_witness :
  resize_image (fun a _ => Ok a) (NdArray (flat_image UInt8 4 4 3 0)) 2
  = Ok (Some (flat_image UInt8 4 4 3 0)).
Proof.
  apply (resize_image_square_uncropped (fun a _ => Ok a)
           (NdArray (flat_image UInt8 4 4 3 0)) (flat_image UInt8 4 4 3 0) 4 [3%nat] 2).
  - vm_compute. reflexivity.
  - reflexivity.
  - reflexivity.
Defined.

(** ** crop_face_to_square: the square and the box *)




(** ** Crops are made of the image's samples *)

Lemma chunks_Forall {A : Type} (P : A -> Prop) (k n : nat) (l : list A) :
  Forall P l -> Forall (Forall P) (chunks k n l).
Proof.
  revert l. induction n as [| n IH]; intros l Hl; simpl; constructor.
  - apply Forall_firstn. exact Hl.
  - apply IH, Forall_skipn. exact Hl.
Qed.

Lemma flat_map_Forall {A B : Type} (P : B -> Prop) (f : A -> list B) (l : list A) :
  Forall (fun a => Forall P (f a)) l -> Forall P (flat_map f l).
Proof.
  induction 1 as [| a l Ha Hl IH]; simpl; [constructor |].
  apply Forall_app. split; assumption.
Qed.

Lemma slice2_samples (P : Q -> Prop) (a c : ndarray) (y1 y2 x1 x2 : Z) :
  Forall P (nd_data a) ->
  slice2 a y1 y2 x1 x2 = Ok c ->
  Forall P (nd_data c).
Proof.
  intros HP. unfold slice2.
  destruct (nd_shape a) as [| h [| w rest]]; try discriminate.
  destruct (slice_range h y1 y2) as [r0 rn], (slice_range w x1 x2) as [c0 cn].
  intros E. injection E as <-. simpl.
  apply flat_map_Forall.
  eapply Forall_impl;
    [| apply Forall_firstn, Forall_skipn, (chunks_Forall P); exact HP].
  intros row Hrow. simpl. apply Forall_firstn, Forall_skipn. exact Hrow.
Qed.

Lemma slice2_ok_shape (a c : ndarray) (y1 y2 x1 x2 : Z) :
  slice2 a y1 y2 x1 x2 = Ok c ->
  nd_dtype c = nd_dtype a
  /\ exists rows cols, nd_shape c = rows :: cols :: tl (tl (nd_shape a)).
Proof.
  unfold slice2. destruct (nd_shape a) as [| h [| w rest]]; try discriminate.
  destruct (slice_range h y1 y2) as [r0 rn], (slice_range w x1 x2) as [c0 cn].
  intros E. injection E as <-. simpl. eauto.
Qed.

Lemma slice2_wf (a c : ndarray) (y1 y2 x1 x2 : Z) :
  wf a = true -> slice2 a y1 y2 x1 x2 = Ok c -> wf c = true.
Proof.
  intros Hwf E. unfold wf in *. apply andb_prop in Hwf. destruct Hwf as [Hl Hu].
  apply Nat.eqb_eq in Hl. apply andb_true_intro. split.
  - apply Nat.eqb_eq. exact (slice2_size a c y1 y2 x1 x2 Hl E).
  - destruct (slice2_ok_shape _ _ _ _ _ _ E) as [-> _].
    destruct (nd_dtype a); [| reflexivity | reflexivity].
    apply forallb_forall. apply Forall_forall.
    apply (slice2_samples (fun v => is_uint8 v = true) a c y1 y2 x1 x2);
      [| exact E].
    apply Forall_forall. apply forallb_forall. exact Hu.
Qed.

(** X7.  Whatever [crop_face_to_square] returns as the crop is cut out of the
    image: it has the image's dtype and trailing axes (channels), every
    sample of it is a sample of the image, and it is well-formed when the
    image is. *)
Theorem crop_face_to_square_cut_out (image crop : ndarray)
    (df : option (DataFrame Q)) (p : Q) (b : BBox) :
  crop_face_to_square image df p = Ok (Some (crop, b)) ->
  nd_dtype crop = nd_dtype image
  /\ (exists rows cols, nd_shape crop = rows :: cols :: tl (tl (nd_shape image)))
  /\ (forall v, In v (nd_data crop) -> In v (nd_data image))
  /\ (wf image = true -> wf crop = true).
Proof.
  unfold crop_face_to_square.
  destruct (calculate_face_bbox df p) as [bbox |]; [| discriminate].
  destruct (shape_at image 1) as [s1 | e]; cbn [bind]; [| discriminate].
  destruct (shape_at image 0) as [s0 | e]; cbn [bind]; [| discriminate].
  destruct (square_region bbox s1 s0) as [[[x1 y1] x2] y2].
  destruct (slice2 image y1 y2 x1 x2) as [c | e] eqn:Esl; cbn [bind];
    [| discriminate].
  intros E. injection E as <- _.
  destruct (slice2_ok_shape _ _ _ _ _ _ Esl) as [Hd Hs].
  split; [exact Hd |]. split; [exact Hs |]. split.
  - apply Forall_forall.
    apply (slice2_samples (fun v => In v (nd_data image)) image c y1 y2 x1 x2);
      [apply Forall_forall; auto | exact Esl].
  - intros Hwf. exact (slice2_wf _ _ _ _ _ _ Hwf Esl).
Qed.

Lemma crop_face_to_square_cut_out_witness :
  exists crop b,
    crop_face_to_square (flat_image UInt8 8 8 3 0)
      (Some [pt 33 5 2; pt 263 7 6]) (1 # 4) = Ok (Some (crop, b))
    /\ nd_dtype crop = UInt8
    /\ (forall v, In v (nd_data crop) -> In v (nd_data (flat_image UInt8 8 8 3 0))).
Proof.
  destruct (crop_face_to_square (flat_image UInt8 8 8 3 0)
              (Some [pt 33 5 2; pt 263 7 6]) (1 # 4)) as [[[crop b] |] | e] eqn:E;
    try (vm_compute in E; discriminate).
  exists crop, b. split; [reflexivity |].
  destruct (crop_face_to_square_cut_out _ crop _ _ b E) as [Hd [_ [Hin _]]].
  split; [exact Hd | exact Hin].
Defined.

(** X8.  Whatever [crop_face] returns is cut out of the normalized image:
    same dtype, same channels, samples of the normalized image only, and
    well-formed when the normalized image is. *)
Theorem crop_face_cut_out (image : image_input) (image_np crop : ndarray)
    (df : option (DataFrame Q)) (p : Q) :
  _convert_to_numpy image = Ok image_np ->
  crop_face image df p = Ok (Some crop) ->
  nd_dtype crop = nd_dtype image_np
  /\ (exists rows cols, nd_shape crop = rows :: cols :: tl (tl (nd_shape image_np)))
  /\ (forall v, In v (nd_data crop) -> In v (nd_data image_np))
  /\ (wf image_np = true -> wf crop = true).
Proof.
  intros Hc. unfold crop_face. rewrite Hc. cbn [bind].
  destruct (calculate_face_bbox df p) as [[[[x y] w] h] |]; [| discriminate].
  destruct (slice2 image_np y (y + h) x (x + w)) as [c | e] eqn:Esl; cbn [bind];
    [| discriminate].
  intros E. injection E as <-.
  destruct (slice2_ok_shape _ _ _ _ _ _ Esl) as [Hd Hs].
  split; [exact Hd |]. split; [exact Hs |]. split.
  - apply Forall_forall.
    apply (slice2_samples (fun v => In v (nd_data image_np)) image_np c
             y (y + h) x (x + w));
      [apply Forall_forall; auto | exact Esl].
  - intros Hwf. exact (slice2_wf _ _ _ _ _ _ Hwf Esl).
Qed.

Lemma crop_face_cut_out_witness :
  exists crop,
    crop_face (NdArray (flat_image UInt8 8 8 3 0))
      (Some [pt 33 5 2; pt 263 7 6]) (1 # 4) = Ok (Some crop)
    /\ nd_dtype crop = UInt8
    /\ wf crop = true.
Proof.
  destruct (crop_face (NdArray (flat_image UInt8 8 8 3 0))
              (Some [pt 33 5 2; pt 263 7 6]) (1 # 4)) as [[crop |] | e] eqn:E;
    try (vm_compute in E; discriminate).
  exists crop. split; [reflexivity |].
  destruct (crop_face_cut_out (NdArray (flat_image UInt8 8 8 3 0))
              (flat_image UInt8 8 8 3 0) crop _ _ ltac:(vm_compute; reflexivity) E)
    as [Hd [_ [_ Hwf]]].
  split; [exact Hd | apply Hwf; vm_compute; reflexivity].
Defined.

(** ** _convert_to_numpy: normalizing twice, and batches *)

(** What the dispatch on the shape returns, it returns again. *)
Lemma convert_channels_fixed (a r : ndarray) :
  convert_channels (Some a) = Ok r -> convert_channels (Some r) = Ok r.
Proof.
  intros E. destruct (convert_channels_ok a r E) as [_ [_ [Hrgb [Hsame _]]]].
  destruct (rgb_like (nd_shape a)) eqn:Er.
  - destruct (Hrgb eq_refl) as [h [w Hs]].
    unfold convert_channels. rewrite Hs. reflexivity.
  - rewrite (Hsame eq_refl). rewrite (Hsame eq_refl) in E. exact E.
Qed.

(** X9.  Normalizing is idempotent on what it returns: an array returned by
    [_convert_to_numpy] and passed again, as a decoded image, comes back
    unchanged; passed again as an array it comes back unchanged unless it has
    four axes or dtype float32. *)
Theorem convert_to_numpy_idempotent (image : image_input) (r : ndarray) :
  _convert_to_numpy image = Ok r ->
  _convert_to_numpy (PILImage r) = Ok r
  /\ (length (nd_shape r) <> 4%nat -> nd_dtype r <> Float32 ->
      _convert_to_numpy (NdArray r) = Ok r).
Proof.
  intros E. destruct (convert_to_numpy_inv _ _ E) as [a [_ Ec]].
  pose proof (convert_channels_fixed a r Ec) as Hfix.
  split.
  - unfold _convert_to_numpy, convert_by_type. cbn [bind]. exact Hfix.
  - intros Hl Hd. unfold _convert_to_numpy, convert_by_type.
    assert (Ed : dtype_eqb (nd_dtype r) Float32 = false)
      by (destruct (nd_dtype r); [reflexivity | congruence | reflexivity]).
    rewrite Ed. cbn [bind]. apply Nat.eqb_neq in Hl. rewrite Hl. cbn [bind].
    exact Hfix.
Qed.

Lemma convert_to_numpy_idempotent_witness :
  _convert_to_numpy (NdArray (flat_image UInt8 2 2 3 255))
  = Ok (flat_image UInt8 2 2 3 255).
Proof.
  destruct (convert_to_numpy_idempotent
              (NdArray (flat_image Float32 2 2 3 1)) (flat_image UInt8 2 2 3 255))
    as [_ H].
  - vm_compute. reflexivity.
  - apply H; [vm_compute; discriminate | discriminate].
Defined.

(** X10.  Of a batch, only the first image counts.  A 4-D tensor, and a 4-D
    array of a dtype other than float32, normalize to what their first image
    alone normalizes to; with an empty batch they raise IndexError. *)
Theorem convert_to_numpy_first_item_only (a : ndarray) (n h w c : nat) :
  nd_shape a = [n; h; w; c] ->
  match n with
  | O =>
      _convert_to_numpy (Tensor a) = Raise IndexError
      /\ (nd_dtype a <> Float32 -> _convert_to_numpy (NdArray a) = Raise IndexError)
  | S _ =>
      _convert_to_numpy (Tensor a) = _convert_to_numpy (Tensor (first_item a))
      /\ (nd_dtype a <> Float32 ->
          _convert_to_numpy (NdArray a) = _convert_to_numpy (NdArray (first_item a)))
  end.
Proof.
  intros Hs.
  assert (Ed : nd_dtype a <> Float32 -> dtype_eqb (nd_dtype a) Float32 = false)
    by (intros Hd; destruct (nd_dtype a); [reflexivity | congruence | reflexivity]).
  unfold _convert_to_numpy, convert_by_type, first_item, item0.
  rewrite Hs. cbn [nd_shape nd_dtype nd_data tl length Nat.eqb].
  destruct n as [| n]; split; try reflexivity;
    intros Hd; rewrite (Ed Hd); cbn [bind]; rewrite Hs;
    cbn [nd_shape nd_dtype nd_data tl length Nat.eqb]; rewrite ?(Ed Hd);
    reflexivity.
Qed.

Lemma convert_to_numpy_first_item_only_witness :
  _convert_to_numpy (Tensor (mkArray Float32 [2; 1; 1; 3]%nat [1; 0; 1 # 2; 0; 0; 0]%Q))
  = _convert_to_numpy
      (Tensor (first_item (mkArray Float32 [2; 1; 1; 3]%nat [1; 0; 1 # 2; 0; 0; 0]%Q))).
Proof.
  destruct (convert_to_numpy_first_item_only
              (mkArray Float32 [2; 1; 1; 3]%nat [1; 0; 1 # 2; 0; 0; 0]%Q) 2 1 1 3
              eq_refl) as [H _].
  exact H.
Defined.

(** ** calculate_face_bbox: what the box depends on *)

Lemma same_elements_nil {A : Type} (s s' : list A) :
  (forall v, In v s <-> In v s') -> s = [] -> s' = [].
Proof.
  intros H ->. destruct s' as [| v vs]; [reflexivity |].
  exfalso. apply (proj2 (H v)). now left.
Qed.

Lemma series_min_same_elements (s s' : list Q) :
  (forall v, In v s <-> In v s') -> (Pd.series_min s == Pd.series_min s')%Q.
Proof.
  intros H. destruct s as [| a vs].
  - rewrite (same_elements_nil _ _ H eq_refl). reflexivity.
  - assert (Hs : a :: vs <> []) by discriminate.
    assert (Hs' : s' <> []).
    { intros E. apply Hs. apply (same_elements_nil s' (a :: vs)); [| exact E].
      intros v. symmetry. apply H. }
    apply Qle_antisym.
    + apply series_min_le, H, series_min_In, Hs'.
    + apply series_min_le, H, series_min_In, Hs.
Qed.

Lemma series_max_same_elements (s s' : list Q) :
  (forall v, In v s <-> In v s') -> (Pd.series_max s == Pd.series_max s')%Q.
Proof.
  intros H. destruct s as [| a vs].
  - rewrite (same_elements_nil _ _ H eq_refl). reflexivity.
  - assert (Hs : a :: vs <> []) by discriminate.
    assert (Hs' : s' <> []).
    { intros E. apply Hs. apply (same_elements_nil s' (a :: vs)); [| exact E].
      intros v. symmetry. apply H. }
    apply Qle_antisym.
    + apply series_max_ge, H, series_max_In, Hs.
    + apply series_max_ge, H, series_max_In, Hs'.
Qed.

Lemma side_start_comp (mn mx mn' mx' p : Q) :
  (mn == mn')%Q -> (mx == mx')%Q -> side_start mn mx p = side_start mn' mx' p.
Proof.
  intros Hn Hx. unfold side_start. apply int_comp, max0_comp.
  rewrite Hn, Hx. reflexivity.
Qed.

Lemma side_length_comp (mn mx mn' mx' p : Q) :
  (mn == mn')%Q -> (mx == mx')%Q -> side_length mn mx p = side_length mn' mx' p.
Proof.
  intros Hn Hx. unfold side_length. apply int_comp.
  assert (E : (max0 (mn - (mx - mn) * p) == max0 (mn' - (mx' - mn') * p))%Q)
    by (apply max0_comp; rewrite Hn, Hx; reflexivity).
  rewrite E, Hx, Hn. reflexivity.
Qed.

(** X11.  The box depends only on which x values and which y values occur
    among the landmarks: two tables with the same x values and the same y
    values get the same box, whatever the order of their rows, their indices
    and their repeated rows. *)
Theorem calculate_face_bbox_same_coordinates (df df' : DataFrame Q) (p : Q) :
  (forall v, In v (Pd.col_x df) <-> In v (Pd.col_x df')) ->
  (forall v, In v (Pd.col_y df) <-> In v (Pd.col_y df')) ->
  calculate_face_bbox (Some df) p = calculate_face_bbox (Some df') p.
Proof.
  intros Hx Hy. destruct df as [| r rs].
  - assert (E : df' = []).
    { pose proof (same_elements_nil _ _ Hx eq_refl) as E.
      destruct df'; [reflexivity | discriminate]. }
    rewrite E. reflexivity.
  - assert (Hne' : df' <> []).
    { intros E. subst df'. apply (proj1 (Hx (lm_x r))). now left. }
    rewrite (calculate_face_bbox_sides (r :: rs) p) by discriminate.
    rewrite (calculate_face_bbox_sides df' p Hne').
    unfold min_x, max_x, min_y, max_y.
    rewrite (side_start_comp _ _ _ _ p (series_min_same_elements _ _ Hx)
               (series_max_same_elements _ _ Hx)).
    rewrite (side_start_comp _ _ _ _ p (series_min_same_elements _ _ Hy)
               (series_max_same_elements _ _ Hy)).
    rewrite (side_length_comp _ _ _ _ p (series_min_same_elements _ _ Hx)
               (series_max_same_elements _ _ Hx)).
    rewrite (side_length_comp _ _ _ _ p (series_min_same_elements _ _ Hy)
               (series_max_same_elements _ _ Hy)).
    reflexivity.
Qed.

Lemma calculate_face_bbox_same_coordinates_witness :
  calculate_face_bbox (Some [pt 33 1 5; pt 263 3 2; pt 1 2 3]) (1 # 4)
  = calculate_face_bbox (Some [pt 7 2 2; pt 8 3 3; pt 9 1 5; pt 9 1 5]) (1 # 4).
Proof.
  apply calculate_face_bbox_same_coordinates; intros v; simpl; tauto.
Defined.

(** X12.  Landmarks that share one x (or one y) that is not negative give a
    box of width (or height) 0 at that coordinate, whatever the padding: a
    single landmark, or eyes alone when they are level, give an empty box. *)
Theorem calculate_face_bbox_degenerate (df : DataFrame Q) (p : Q) :
  df <> [] ->
  exists x y w h,
    calculate_face_bbox (Some df) p = Some (x, y, w, h)
    /\ ((0 <= min_x df)%Q -> (min_x df == max_x df)%Q ->
        x = int (min_x df) /\ w = 0)
    /\ ((0 <= min_y df)%Q -> (min_y df == max_y df)%Q ->
        y = int (min_y df) /\ h = 0).
Proof.
  intros Hne. rewrite (calculate_face_bbox_sides df p Hne).
  do 4 eexists. split; [reflexivity |].
  assert (G : forall mn mx, (0 <= mn)%Q -> (mn == mx)%Q ->
              side_start mn mx p = int mn /\ side_length mn mx p = 0).
  { intros mn mx H0 E. unfold side_start, side_length.
    assert (Ea : (mn - (mx - mn) * p == mn)%Q) by (rewrite E; ring).
    assert (Em : (max0 (mn - (mx - mn) * p) == mn)%Q).
    { rewrite (max0_comp _ _ Ea). apply max0_of_nonneg. exact H0. }
    split; [apply int_comp; exact Em |].
    change 0 with (int 0). apply int_comp. rewrite Em, E. ring. }
  split; apply G.
Qed.

Lemma calculate_face_bbox_degenerate_witness :
  exists x y w h,
    calculate_face_bbox (Some level_eyes) (2 # 10) = Some (x, y, w, h)
    /\ y = int (min_y level_eyes) /\ h = 0.
Proof.
  destruct (calculate_face_bbox_degenerate level_eyes (2 # 10))
    as [x [y [w [h [E [_ Hy]]]]]]; [discriminate |].
  exists x, y, w, h. split; [exact E |].
  apply Hy; vm_compute; [discriminate | reflexivity].
Defined.

(** ** calculate_rotation_angle: range and zero *)





(** ** No landmarks *)

(** X14.  With an absent or empty landmark table, [crop_face_to_square]
    returns the sentinel pair without looking at the image, whereas
    [crop_face] normalizes the image first: it returns [None] if the image
    normalizes and raises what the normalizer raises if it does not, so
    [crop_face(None, None)] raises AttributeError. *)
Theorem crop_without_landmarks (df : option (DataFrame Q)) (p : Q) :
  df = None \/ df = Some [] ->
  (forall image, crop_face_to_square image df p = Ok None)
  /\ (forall image image_np, _convert_to_numpy image = Ok image_np ->
                             crop_face image df p = Ok None)
  /\ (forall image e, _convert_to_numpy image = Raise e ->
                      crop_face image df p = Raise e)
  /\ crop_face PyNone df p = Raise AttributeError.
Proof.
  intros Hdf.
  assert (Hb : calculate_face_bbox df p = None)
    by (destruct Hdf as [-> | ->]; reflexivity).
  unfold crop_face_to_square, crop_face. rewrite Hb.
  split; [reflexivity |]. split; [| split].
  - intros image image_np ->. reflexivity.
  - intros image e ->. reflexivity.
  - reflexivity.
Qed.

Lemma crop_without_landmarks_witness :
  crop_face_to_square (mkArray UInt8 [] []) (Some []) 0 = Ok None
  /\ crop_face PyNone (Some []) 0 = Raise AttributeError.
Proof.
  destruct (crop_without_landmarks (Some []) 0) as [H1 [_ [_ H4]]].
  - right. reflexivity.
  - split; [apply H1 | exact H4].
Defined.

(** ** Errors of rotate_image and crop_face_to_square *)

Lemma calculate_rotation_angle_missing (df : DataFrame Q) :
  df <> [] ->
  ~ has_index df LEFT_EYE \/ ~ has_index df RIGHT_EYE ->
  calculate_rotation_angle (Some df) = Raise IndexError.
Proof.
  intros Hne Hm. rewrite (calculate_rotation_angle_nonempty df Hne).
  rewrite <- !select_index_nil in Hm.
  destruct (Pd.select_index df LEFT_EYE) as [| l ls]; [reflexivity |].
  destruct Hm as [Hm | Hm]; [discriminate |]. rewrite Hm. reflexivity.
Qed.

(** X15.  With an image that normalizes and a non-empty table that lacks a
    row of index 33 or 263, [rotate_image] raises IndexError before any
    resampling: the result does not depend on the resampler. *)
Theorem rotate_image_missing_eye
    (warpAffine : ndarray -> (R * R * R) * (R * R * R) -> Z * Z -> result ndarray)
    (image : image_input) (image_np : ndarray) (df : DataFrame Q) :
  _convert_to_numpy image = Ok image_np ->
  df <> [] ->
  ~ has_index df LEFT_EYE \/ ~ has_index df RIGHT_EYE ->
  rotate_image warpAffine image (Some df) = Raise IndexError.
Proof.
  intros Hc Hne Hm. unfold rotate_image. rewrite Hc. cbn [bind].
  rewrite (calculate_rotation_angle_missing df Hne Hm). reflexivity.
Qed.

Lemma rotate_image_missing_eye_witness :
  rotate_image keep_image (NdArray (flat_image UInt8 4 4 3 0))
    (Some [pt 33 1 1; pt 264 3 2]) = Raise IndexError.
Proof.
  apply (rotate_image_missing_eye keep_image (NdArray (flat_image UInt8 4 4 3 0))
           (flat_image UInt8 4 4 3 0)).
  - vm_compute. reflexivity.
  - discriminate.
  - right. intros [r [Hin Hi]]. simpl in Hin.
    destruct Hin as [<- | [<- | []]]; discriminate.
Defined.


